(** * Karnataka Assembly 2023 dashboard: the data pipeline of [app.py]

    A shallow embedding of the loader ([load_data] with its inner
    [norm_party]), the sidebar filter, the statewide and filtered
    aggregations, the values that the three views compute and the CSV
    export.

    Conventions of the embedding.
    - Text is [string]: a sequence of one-byte characters.  Python's
      [str.upper] and [str.strip] are modelled on ASCII text; a byte
      above 127 is kept as it is.
    - A Python [int] is a [Z]; a float is an exact rational ([Q]) or an
      infinity; NaN is the missing entry.  Float operations are exact:
      their rounding is not part of the model.
    - A data frame is the list of its rows, in order, each row a record
      of the nine required columns.  Further columns of the file and the
      row labels (the pandas index) are not modelled.
    - [st.error] followed by [st.stop] is the outcome [Stop], an uncaught
      Python exception is [Raise].
    - Widgets are inputs: the radio button is a [view_mode], the three
      filters are a [selection].  Charts and tables are not modelled. *)

From Stdlib Require Import Bool Ascii String List ZArith QArith Qabs Lia.
From Stdlib Require Import Permutation Sorted.
Import ListNotations.

Local Open Scope string_scope.
Local Open Scope Z_scope.

(** ** Python string operations used by [norm_party] *)

Module PyStr.

(** [c.upper()] for one ASCII character. *)
Definition upper_char (c : ascii) : ascii :=
  let n := nat_of_ascii c in
  if ((97 <=? n) && (n <=? 122))%nat then ascii_of_nat (n - 32) else c.

(** [s.upper()] *)
Fixpoint upper (s : string) : string :=
  match s with
  | EmptyString => EmptyString
  | String c s' => String (upper_char c) (upper s')
  end.

(** [c.isspace()] on ASCII: tab, LF, VT, FF, CR, the separators
    0x1c-0x1f and the blank. *)
Definition isspace (c : ascii) : bool :=
  let n := nat_of_ascii c in
  (((9 <=? n) && (n <=? 13)) || ((28 <=? n) && (n <=? 32)))%nat.

Fixpoint lstrip (s : string) : string :=
  match s with
  | EmptyString => EmptyString
  | String c s' => if isspace c then lstrip s' else s
  end.

Fixpoint rstrip (s : string) : string :=
  match s with
  | EmptyString => EmptyString
  | String c s' =>
      match rstrip s' with
      | EmptyString => if isspace c then EmptyString else String c EmptyString
      | r => String c r
      end
  end.

(** [s.strip()] *)
Definition strip (s : string) : string := rstrip (lstrip s).

(** [s.startswith(pre)] *)
Definition startswith (pre s : string) : bool := prefix pre s.

(** [sub in s] *)
Fixpoint contains (sub s : string) : bool :=
  prefix sub s ||
  match s with
  | EmptyString => false
  | String _ s' => contains sub s'
  end.


End PyStr.

(** ** The loader's party normaliser (app.py, [norm_party]) *)

(** The four buckets, as the strings the code returns. *)
Definition buckets : list string := ["INC"; "BJP"; "JDS"; "Others"].

(** The body of [norm_party] after [p = str(p)]. *)
Definition norm_party (p : string) : string :=
  let p := PyStr.strip (PyStr.upper p) in
  if (p =? "INC")%string || PyStr.contains "CONGRESS" p then "INC"
  else if (p =? "BJP")%string || PyStr.contains "BHARATIYA JANATA" p then "BJP"
  else if PyStr.startswith "JD" p || PyStr.contains "JANATA DAL" p then "JDS"
  else "Others".


(** ** Lemmas on the string tests *)






Lemma norm_party_in_buckets (p : string) : In (norm_party p) buckets.
Proof.
  unfold norm_party, buckets.
  repeat match goal with |- context [if ?b then _ else _] => destruct b end;
    simpl; auto.
Qed.


(** ** Values of a data frame *)

(** A float64 other than NaN.  A finite value is held as the rational it
    denotes, in lowest terms. *)
Inductive fnum : Type :=
| Finite (q : Q)
| PosInf
| NegInf.

(** An entry of a column as [pd.read_csv] leaves it: a number (column of
    numeric dtype), a [str] (column of object dtype) or the missing entry
    NaN.  A [str] entry carries the number that pandas' numeric parser
    reads from its characters, [None] when they do not spell a number;
    the parser itself belongs to pandas and is not modelled further. *)
Inductive cell : Type :=
| Num (x : fnum)
| Text (s : string) (reads : option fnum)
| NaN.

Lemma fnum_eq_dec (x y : fnum) : {x = y} + {x <> y}.
Proof.
  decide equality.
  destruct q as [a b], q0 as [c d].
  destruct (Z.eq_dec a c) as [->|]; [|right; congruence].
  destruct (Pos.eq_dec b d) as [->|]; [left; reflexivity|right; congruence].
Defined.

Lemma option_fnum_eq_dec (x y : option fnum) : {x = y} + {x <> y}.
Proof.
  decide equality. apply fnum_eq_dec.
Defined.

Lemma cell_eq_dec (x y : cell) : {x = y} + {x <> y}.
Proof.
  decide equality;
    [apply fnum_eq_dec | apply option_fnum_eq_dec | apply string_dec].
Defined.

(** ** Outcomes of the script *)

(** [Ok]: the code went on with a value.  [Stop msg]: [st.error(msg)] then
    [st.stop()].  [Raise exc]: an uncaught exception.  [Undefined]: the
    code went on with a value that numpy leaves to the platform (the cast
    to int64 of a float outside the int64 range); the embedding gives it
    no value. *)
Inductive result (A : Type) : Type :=
| Ok (a : A)
| Stop (msg : string)
| Raise (exc : string)
| Undefined.

Arguments Ok {A} a.
Arguments Stop {A} msg.
Arguments Raise {A} exc.
Arguments Undefined {A}.

Definition bind {A B : Type} (m : result A) (k : A -> result B) : result B :=
  match m with
  | Ok a => k a
  | Stop msg => Stop msg
  | Raise exc => Raise exc
  | Undefined => Undefined
  end.

Notation "x <- m ;; k" := (bind m (fun x => k))
  (at level 61, m at next level, right associativity).

(** ** pandas operations of the loader *)

(** [pd.to_numeric(col, errors="coerce")] on one entry; [None] is NaN. *)
Definition to_numeric (c : cell) : option fnum :=
  match c with
  | Num x => Some x
  | Text _ reads => reads
  | NaN => None
  end.

(** [.fillna(d)] on one entry. *)
Definition fillna (d : fnum) (x : option fnum) : fnum :=
  match x with
  | Some v => v
  | None => d
  end.

Definition is_finite (x : fnum) : bool :=
  match x with
  | Finite _ => true
  | _ => false
  end.

(** Truncation toward zero, the float to int conversion. *)
Definition trunc (x : fnum) : Z :=
  match x with
  | Finite q => Z.quot (Qnum q) (Z.pos (Qden q))
  | _ => 0
  end.

Definition in_int64 (z : Z) : bool :=
  (- 2 ^ 63 <=? z) && (z <? 2 ^ 63).

(** [.astype(int)] on a float column: pandas raises when an entry is not
    finite, otherwise every entry is truncated toward zero. *)
Definition astype_int (col : list fnum) : result (list Z) :=
  if forallb is_finite col then
    if forallb (fun x => in_int64 (trunc x)) col then Ok (map trunc col)
    else Undefined
  else Raise "IntCastingNaNError".

(** ** Rows before and after loading *)

(** One line of the CSV file: the entries of the nine required columns. *)
Record raw_row : Type := mk_raw_row {
  raw_Constituency_ID : cell;
  raw_Constituency_Name : cell;
  raw_Winner_Name : cell;
  raw_Winner_Party : cell;
  raw_Winner : cell;
  raw_Region : cell;
  raw_Margin : cell;
  raw_Turnout_Percentage : cell;
  raw_Seats : cell
}.

(** What [pd.read_csv] returns: the header and the lines.  Where a
    required column is absent from [raw_columns] the loader stops before
    it reads the entries. *)
Record raw_frame : Type := mk_raw_frame {
  raw_columns : list string;
  raw_rows : list raw_row
}.

(** One row of the loaded data frame [df]. *)
Record row : Type := mk_row {
  Constituency_ID : cell;
  Constituency_Name : cell;
  Winner_Name : cell;
  Winner_Party : cell;
  Winner : string;
  Region : cell;
  Margin : Z;
  Turnout_Percentage : fnum;
  Seats : Z
}.

Definition required : list string :=
  ["Constituency_ID"; "Constituency_Name"; "Winner_Name"; "Winner_Party";
   "Winner"; "Region"; "Margin"; "Turnout_Percentage"; "Seats"].

(** [c in df.columns] *)
Definition has_column (cols : list string) (c : string) : bool :=
  if in_dec string_dec c cols then true else false.

(** [repr] of a list of column names, as the f-string prints it. *)
Definition repr_list (l : list string) : string :=
  "[" ++ String.concat ", " (map (fun c => "'" ++ c ++ "'") l) ++ "]".

(** [norm_party] applied to one entry of the Winner column: the function
    starts with [p = str(p)].  [str] of NaN is "nan".  [str] of a number
    is a numeral (digits, sign, point, exponent, "inf"): none of the tests
    of [norm_party] holds of a numeral, so the entry goes to Others. *)
Definition apply_norm_party (c : cell) : string :=
  match c with
  | Text s _ => norm_party s
  | NaN => norm_party "nan"
  | Num _ => "Others"
  end.

(** The three float columns before [astype]. *)
Definition margin_float (r : raw_row) : fnum :=
  fillna (Finite 0) (to_numeric (raw_Margin r)).
Definition turnout_float (r : raw_row) : fnum :=
  fillna (Finite 72) (to_numeric (raw_Turnout_Percentage r)).
Definition seats_float (r : raw_row) : fnum :=
  fillna (Finite 1) (to_numeric (raw_Seats r)).

(** The frame with its four columns replaced. *)
Fixpoint assign (rs : list raw_row) (margin : list Z) (turnout : list fnum)
  (seats : list Z) (winner : list string) : list row :=
  match rs, margin, turnout, seats, winner with
  | r :: rs', m :: ms, t :: ts, s :: ss, w :: ws =>
      mk_row (raw_Constituency_ID r) (raw_Constituency_Name r)
             (raw_Winner_Name r) (raw_Winner_Party r) w (raw_Region r) m t s
      :: assign rs' ms ts ss ws
  | _, _, _, _, _ => []
  end.

(** [load_data], from the frame that [pd.read_csv] returned. *)
Definition load_data (csv : raw_frame) : result (list row) :=
  let missing := filter (fun c => negb (has_column (raw_columns csv) c)) required in
  match missing with
  | _ :: _ => Stop ("CSV is missing required columns: " ++ repr_list missing)
  | [] =>
      let rs := raw_rows csv in
      margin <- astype_int (map margin_float rs) ;;
      let turnout := map turnout_float rs in
      seats <- astype_int (map seats_float rs) ;;
      let winner := map (fun r => apply_norm_party (raw_Winner r)) rs in
      Ok (assign rs margin turnout seats winner)
  end.

(** The row that a line becomes when the load succeeds. *)
Definition load_row (r : raw_row) : row :=
  mk_row (raw_Constituency_ID r) (raw_Constituency_Name r)
         (raw_Winner_Name r) (raw_Winner_Party r)
         (apply_norm_party (raw_Winner r)) (raw_Region r)
         (trunc (margin_float r)) (turnout_float r) (trunc (seats_float r)).

(** A float that [astype(int)] converts: finite and within int64. *)
Definition castable (x : fnum) : bool := is_finite x && in_int64 (trunc x).

(** ** Lemmas on the loader *)

Lemma astype_int_Ok (col : list fnum) (zs : list Z) :
  astype_int col = Ok zs <-> forallb castable col = true /\ zs = map trunc col.
Proof.
  unfold astype_int.
  assert (E : forallb castable col
              = forallb is_finite col && forallb (fun x => in_int64 (trunc x)) col).
  { induction col as [|x col IH]; simpl; [reflexivity|].
    rewrite IH. unfold castable.
    destruct (is_finite x), (in_int64 (trunc x)), (forallb is_finite col);
      reflexivity. }
  rewrite E.
  destruct (forallb is_finite col);
    destruct (forallb (fun x => in_int64 (trunc x)) col); simpl;
    split; try discriminate; try (intros [? ?]; discriminate).
  - intros H. injection H as <-. auto.
  - intros [_ ->]. reflexivity.
Qed.

Lemma assign_map (rs : list raw_row) :
  assign rs (map (fun r => trunc (margin_float r)) rs) (map turnout_float rs)
            (map (fun r => trunc (seats_float r)) rs)
            (map (fun r => apply_norm_party (raw_Winner r)) rs)
  = map load_row rs.
Proof.
  induction rs as [|r rs IH]; simpl; [reflexivity|].
  now rewrite IH.
Qed.

Definition schema_ok (csv : raw_frame) : bool :=
  forallb (has_column (raw_columns csv)) required.

Lemma schema_ok_missing (cols : list string) (req : list string) :
  forallb (has_column cols) req = true
  <-> filter (fun c => negb (has_column cols c)) req = [].
Proof.
  induction req as [|c req IH]; simpl; [tauto|].
  destruct (has_column cols c); simpl; [exact IH|].
  split; discriminate.
Qed.

(** The load succeeds exactly when the header has the nine columns and
    the Margin and Seats columns convert; the frame is then the lines,
    each loaded on its own. *)
Lemma load_data_Ok (csv : raw_frame) (df : list row) :
  load_data csv = Ok df
  <-> schema_ok csv = true
      /\ forallb castable (map margin_float (raw_rows csv)) = true
      /\ forallb castable (map seats_float (raw_rows csv)) = true
      /\ df = map load_row (raw_rows csv).
Proof.
  unfold load_data, schema_ok. rewrite schema_ok_missing.
  destruct (filter _ required) as [|c l].
  - destruct (astype_int (map margin_float (raw_rows csv))) as [ms| | |] eqn:Em;
      simpl; try (split; [discriminate|]).
    + apply astype_int_Ok in Em. destruct Em as [Hm ->].
      destruct (astype_int (map seats_float (raw_rows csv))) as [ss| | |] eqn:Es;
        simpl; try (split; [discriminate|]).
      * apply astype_int_Ok in Es. destruct Es as [Hs ->].
        rewrite !map_map, assign_map.
        split; [intros H; injection H as <-; auto|].
        intros (_ & _ & _ & ->). reflexivity.
      * intros (_ & _ & Hs & _).
        assert (X : astype_int (map seats_float (raw_rows csv))
                    = Ok (map trunc (map seats_float (raw_rows csv))))
          by (apply astype_int_Ok; auto).
        congruence.
      * intros (_ & _ & Hs & _).
        assert (X : astype_int (map seats_float (raw_rows csv))
                    = Ok (map trunc (map seats_float (raw_rows csv))))
          by (apply astype_int_Ok; auto).
        congruence.
      * intros (_ & _ & Hs & _).
        assert (X : astype_int (map seats_float (raw_rows csv))
                    = Ok (map trunc (map seats_float (raw_rows csv))))
          by (apply astype_int_Ok; auto).
        congruence.
    + intros (_ & Hm & _).
      assert (X : astype_int (map margin_float (raw_rows csv))
                  = Ok (map trunc (map margin_float (raw_rows csv))))
        by (apply astype_int_Ok; auto).
      congruence.
    + intros (_ & Hm & _).
      assert (X : astype_int (map margin_float (raw_rows csv))
                  = Ok (map trunc (map margin_float (raw_rows csv))))
        by (apply astype_int_Ok; auto).
      congruence.
    + intros (_ & Hm & _).
      assert (X : astype_int (map margin_float (raw_rows csv))
                  = Ok (map trunc (map margin_float (raw_rows csv))))
        by (apply astype_int_Ok; auto).
      congruence.
  - split; [discriminate|]. intros (H & _). discriminate.
Qed.

Lemma load_data_rows (csv : raw_frame) (df : list row) :
  load_data csv = Ok df -> df = map load_row (raw_rows csv).
Proof.
  intros H. apply load_data_Ok in H. tauto.
Qed.

Lemma Forall2_map_r {A B : Type} (P : A -> B -> Prop) (f : A -> B) (l : list A) :
  (forall a, In a l -> P a (f a)) -> Forall2 P l (map f l).
Proof.
  induction l as [|a l IH]; simpl; intros H; constructor; auto.
Qed.






(** A small file: one clean line, one line whose three numeric entries
    are text or missing. *)
Definition sample_line (id : Z) (party region : string)
  (margin turnout seats : cell) : raw_row :=
  mk_raw_row (Num (Finite (inject_Z id))) (Text "Seat" None)
             (Text "Candidate" None) (Text party None) (Text party None)
             (Text region None) margin turnout seats.

Definition dirty_csv : raw_frame :=
  mk_raw_frame required
    [ sample_line 1 "Indian National Congress" "Coastal"
        (Num (Finite 1200)) (Num (Finite (131 # 2))) (Num (Finite 1));
      sample_line 2 "bjp" "Coastal" (Text "n.a." None) (Text "high" None) NaN ].


(** ** The sign of a loaded margin *)








(** ** Sorting, and the order of Python strings *)

Section Sorting.

Context {A : Type}.
Variable leb : A -> A -> bool.

(** Stable insertion sort; [leb x y] reads "x may stand before y". *)
Fixpoint insert (x : A) (l : list A) : list A :=
  match l with
  | [] => [x]
  | y :: l' => if leb x y then x :: l else y :: insert x l'
  end.

Fixpoint sort_by (l : list A) : list A :=
  match l with
  | [] => []
  | x :: l' => insert x (sort_by l')
  end.

Lemma insert_perm (x : A) (l : list A) : Permutation (x :: l) (insert x l).
Proof.
  induction l as [|y l IH]; simpl; [reflexivity|].
  destruct (leb x y); [reflexivity|].
  rewrite perm_swap. now constructor.
Qed.

Lemma sort_by_perm (l : list A) : Permutation l (sort_by l).
Proof.
  induction l as [|x l IH]; simpl; [constructor|].
  rewrite <- insert_perm. now constructor.
Qed.

Hypothesis leb_total : forall x y, leb x y = true \/ leb y x = true.
Hypothesis leb_trans :
  forall x y z, leb x y = true -> leb y z = true -> leb x z = true.

Let le (x y : A) : Prop := leb x y = true.

Lemma insert_sorted (x : A) (l : list A) :
  StronglySorted le l -> StronglySorted le (insert x l).
Proof.
  induction 1 as [|y l Hs IH Hy]; simpl.
  - repeat constructor.
  - destruct (leb x y) eqn:E.
    + constructor; [now constructor|].
      constructor; [exact E|].
      eapply Forall_impl; [|exact Hy]. intros z Hz. eapply leb_trans; eauto.
    + constructor; [exact IH|].
      eapply Permutation_Forall; [apply insert_perm|].
      constructor; [|exact Hy].
      destruct (leb_total x y) as [H|H]; [congruence|exact H].
Qed.

Lemma sort_by_sorted (l : list A) : StronglySorted le (sort_by l).
Proof.
  induction l as [|x l IH]; simpl; [constructor|].
  now apply insert_sorted.
Qed.

End Sorting.

Lemma StronglySorted_split {A : Type} (R : A -> A -> Prop)
  (l1 l2 : list A) (e : A) :
  StronglySorted R (l1 ++ e :: l2) -> Forall (R e) l2.
Proof.
  induction l1 as [|x l1 IH]; simpl; intros H; inversion H; subst; auto.
Qed.

Lemma ascii_compare_refl (x : ascii) : Ascii.compare x x = Eq.
Proof. unfold Ascii.compare. apply N.compare_refl. Qed.

Lemma ascii_compare_Lt_trans (x y z : ascii) :
  Ascii.compare x y = Lt -> Ascii.compare y z = Lt -> Ascii.compare x z = Lt.
Proof.
  unfold Ascii.compare. rewrite !N.compare_lt_iff. lia.
Qed.

Lemma string_compare_le_trans (a b c : string) :
  String.compare a b <> Gt -> String.compare b c <> Gt ->
  String.compare a c <> Gt.
Proof.
  revert b c. induction a as [|x a IH]; intros [|y b] [|z c]; simpl;
    try congruence.
  destruct (Ascii.compare x y) eqn:Exy; try congruence;
    destruct (Ascii.compare y z) eqn:Eyz; try congruence.
  - apply Ascii.compare_eq_iff in Exy, Eyz. subst.
    rewrite ascii_compare_refl. apply IH.
  - apply Ascii.compare_eq_iff in Exy. subst. rewrite Eyz. congruence.
  - apply Ascii.compare_eq_iff in Eyz. subst. rewrite Exy. congruence.
  - rewrite (ascii_compare_Lt_trans x y z Exy Eyz). congruence.
Qed.

(** [a <= b] on Python strings: lexicographic on the character codes. *)
Lemma string_leb_trans (a b c : string) :
  String.leb a b = true -> String.leb b c = true -> String.leb a c = true.
Proof.
  unfold String.leb. intros H1 H2.
  pose proof (string_compare_le_trans a b c) as H.
  destruct (String.compare a b); try discriminate;
    destruct (String.compare b c); try discriminate;
    destruct (String.compare a c); try reflexivity;
    exfalso; apply H; congruence.
Qed.

Lemma string_leb_refl (a : string) : String.leb a a = true.
Proof.
  destruct (String.leb_total a a); assumption.
Qed.

(** ** Series: [value_counts], [sort_index], [idxmax], lookups *)

(** A pandas Series with string labels and integer values, in order. *)
Definition Series : Type := list (string * Z).

(** [pd.unique]: the distinct values in order of first appearance. *)
Fixpoint unique (col : list string) : list string :=
  match col with
  | [] => []
  | x :: col' => x :: filter (fun y => negb (y =? x)%string) (unique col')
  end.

(** The number of rows that hold [v]. *)
Definition count (v : string) (col : list string) : Z :=
  Z.of_nat (count_occ string_dec col v).

(** [col.value_counts()]: one entry per distinct value, most frequent
    first. *)
Definition value_counts (col : list string) : Series :=
  sort_by (fun a b => snd b <=? snd a)
          (map (fun v => (v, count v col)) (unique col)).

(** [s.sort_index()] *)
Definition sort_index (s : Series) : Series :=
  sort_by (fun a b => String.leb (fst a) (fst b)) s.

(** The scan of [idxmax]: the label of the first entry that holds the
    largest value. *)
Fixpoint idxmax_from (best : string * Z) (s : Series) : string :=
  match s with
  | [] => fst best
  | e :: s' => if snd best <? snd e then idxmax_from e s'
               else idxmax_from best s'
  end.

(** [s.idxmax()]; pandas raises on an empty Series. *)
Definition idxmax (s : Series) : result string :=
  match s with
  | [] => Raise "ValueError"
  | e :: s' => Ok (idxmax_from e s')
  end.

Fixpoint lookup (k : string) (s : Series) : option Z :=
  match s with
  | [] => None
  | (k', v) :: s' => if (k =? k')%string then Some v else lookup k s'
  end.

(** [s[k]] *)
Definition getitem (s : Series) (k : string) : result Z :=
  match lookup k s with
  | Some v => Ok v
  | None => Raise "KeyError"
  end.

(** [s.get(k, d)] *)
Definition get (s : Series) (k : string) (d : Z) : Z :=
  match lookup k s with
  | Some v => v
  | None => d
  end.

(** ** Lemmas on Series *)

Lemma unique_In (col : list string) (v : string) : In v (unique col) <-> In v col.
Proof.
  induction col as [|x col IH]; simpl; [tauto|].
  rewrite filter_In, IH, negb_true_iff, String.eqb_neq.
  destruct (string_dec x v) as [->|Hne]; [tauto|].
  split; [tauto|]. intros [H|H]; [tauto|]. right. split; congruence.
Qed.

Lemma unique_NoDup (col : list string) : NoDup (unique col).
Proof.
  induction col as [|x col IH]; simpl; constructor.
  - rewrite filter_In, String.eqb_refl. simpl. intros [_ H]. discriminate.
  - now apply NoDup_filter.
Qed.

Lemma count_nonneg (v : string) (col : list string) : 0 <= count v col.
Proof. unfold count. lia. Qed.

Lemma count_pos_In (v : string) (col : list string) :
  0 < count v col <-> In v col.
Proof.
  unfold count. rewrite (count_occ_In string_dec). lia.
Qed.

(** The entries of the sorted counts are the pairs (value, count). *)
Lemma party_counts_In (col : list string) (e : string * Z) :
  In e (sort_index (value_counts col))
  <-> In (fst e) col /\ snd e = count (fst e) col.
Proof.
  unfold sort_index, value_counts.
  rewrite <- (Permutation_in' (x:=e) eq_refl (sort_by_perm _ _)).
  rewrite <- (Permutation_in' (x:=e) eq_refl (sort_by_perm _ _)).
  rewrite in_map_iff. split.
  - intros [v [<- Hv]]. simpl. now rewrite <- unique_In.
  - intros [Hin Hc]. exists (fst e). rewrite unique_In. split; [|exact Hin].
    destruct e; simpl in *. congruence.
Qed.

Lemma party_counts_keys_NoDup (col : list string) :
  NoDup (map fst (sort_index (value_counts col))).
Proof.
  unfold sort_index, value_counts.
  eapply Permutation_NoDup.
  - apply Permutation_map. etransitivity; apply sort_by_perm.
  - rewrite map_map. simpl. rewrite map_id. apply unique_NoDup.
Qed.

Lemma sort_index_sorted (s : Series) :
  StronglySorted (fun a b => String.leb (fst a) (fst b) = true) (sort_index s).
Proof.
  unfold sort_index. apply sort_by_sorted.
  - intros x y. apply String.leb_total.
  - intros x y z. apply string_leb_trans.
Qed.

(** [idxmax_from] stops on the first entry that holds the maximum. *)
Lemma idxmax_from_first (best : string * Z) (s : Series) :
  exists (l1 l2 : Series) (c : Z),
    (best :: s = l1 ++ (idxmax_from best s, c) :: l2)%list
    /\ Forall (fun e => snd e < c) l1
    /\ Forall (fun e => snd e <= c) l2.
Proof.
  revert best. induction s as [|e s IH]; intros best; simpl.
  - exists [], [], (snd best). destruct best. simpl. auto.
  - destruct (snd best <? snd e) eqn:E.
    + apply Z.ltb_lt in E.
      destruct (IH e) as (l1 & l2 & c & Heq & H1 & H2).
      exists (best :: l1), l2, c. repeat split; auto.
      * simpl. now rewrite Heq.
      * constructor; [|exact H1].
        assert (Hin : In e (l1 ++ (idxmax_from e s, c) :: l2)%list)
          by (rewrite <- Heq; now left).
        apply in_app_or in Hin. destruct Hin as [Hin|[Hin|Hin]].
        -- rewrite Forall_forall in H1. specialize (H1 _ Hin). lia.
        -- apply (f_equal snd) in Hin. simpl in Hin. lia.
        -- rewrite Forall_forall in H2. specialize (H2 _ Hin). lia.
    + apply Z.ltb_ge in E.
      destruct (IH best) as (l1 & l2 & c & Heq & H1 & H2).
      destruct l1 as [|b l1]; simpl in Heq; injection Heq as Hb Hs.
      * exists [], (e :: s), c. repeat split; auto.
        -- simpl. f_equal. exact Hb.
        -- constructor; [|rewrite Hs at 1; exact H2].
           apply (f_equal snd) in Hb. simpl in Hb. lia.
      * subst b. apply Forall_cons_iff in H1. destruct H1 as [Hb H1].
        exists (best :: e :: l1), l2, c. split; [|split].
        -- simpl. do 2 f_equal. exact Hs.
        -- constructor; [exact Hb|]. constructor; [lia|exact H1].
        -- exact H2.
Qed.

(** ** The sidebar (app.py, section 3) *)

Definition is_str (c : cell) : bool :=
  match c with
  | Text _ _ => true
  | _ => false
  end.

(** [sorted(frame["Region"].unique())], the options of a region widget.
    Python does not compare a [str] with a float: the sort raises when
    the column holds text and, besides, a number or NaN.  The sorted
    list itself is only shown by the widget and is not modelled. *)
Definition region_options (frame : list row) : result unit :=
  let col := map Region frame in
  if existsb is_str col && existsb (fun c => negb (is_str c)) col
  then Raise "TypeError"
  else Ok tt.

(** ** The sidebar filter (app.py, [filtered_df]) *)

(** The values of the three filter widgets. *)
Record selection : Type := mk_selection {
  region_filter : list cell;
  party_filter : list string;
  turnout_min : Q;
  turnout_max : Q
}.

(** [x <= y] on floats other than NaN. *)
Definition fnum_le (x y : fnum) : Prop :=
  match x, y with
  | NegInf, _ => True
  | _, PosInf => True
  | Finite a, Finite b => (a <= b)%Q
  | _, _ => False
  end.

Definition fnum_leb (x y : fnum) : bool :=
  match x, y with
  | NegInf, _ => true
  | _, PosInf => true
  | Finite a, Finite b => Qle_bool a b
  | _, _ => false
  end.

(** [col.isin(values)] on one entry; [isin] finds NaN among the values
    when NaN is one of them. *)
Definition isin {A : Type} (dec : forall a b : A, {a = b} + {a <> b})
  (v : A) (values : list A) : bool :=
  if in_dec dec v values then true else false.

(** [col == value] on one entry: NaN is equal to nothing. *)
Definition series_eq (v value : cell) : bool :=
  match v with
  | NaN => false
  | _ => if cell_eq_dec v value then true else false
  end.

(** [col.between(lo, hi)] on one entry, both ends included. *)
Definition between (lo hi : Q) (x : fnum) : bool :=
  fnum_leb (Finite lo) x && fnum_leb x (Finite hi).

(** The boolean mask of line 127, row by row. *)
Definition mask (sel : selection) (r : row) : bool :=
  isin cell_eq_dec (Region r) (region_filter sel)
  && isin string_dec (Winner r) (party_filter sel)
  && between (turnout_min sel) (turnout_max sel) (Turnout_Percentage r).

(** [df[mask]] *)
Definition filtered_df (sel : selection) (df : list row) : list row :=
  filter (mask sel) df.

(** ** The aggregations (app.py, section 4) *)

(** [len(df)] *)
Definition len {A : Type} (l : list A) : Z := Z.of_nat (length l).

Definition party_counts (df : list row) : Series :=
  sort_index (value_counts (map Winner df)).

(** [(total_seats_state // 2) + 1] *)
Definition majority_mark_of (total_seats : Z) : Z := total_seats / 2 + 1.

(** The module-level variables of the script once section 4 has run. *)
Record session : Type := mk_session {
  df : list row;
  filtered : list row;
  party_counts_state : Series;
  total_seats_state : Z;
  majority_mark : Z;
  winner_party_state : string;
  party_counts_filtered : Series;
  total_seats_filtered : Z
}.

(** ** The views (app.py, section 5) *)

Inductive view_mode : Type :=
| ExecutiveSummary
| RegionalDeepDive (selected_region : cell)
| ConstituencyAnalysis.

(** One row of [comp_df]. *)
Record comp_row : Type := mk_comp_row {
  Party : string;
  Statewide_Seats : Z;
  Filtered_Seats : Z;
  Statewide_pct : Q;
  Filtered_pct : Q
}.

(** [seats / total * 100], the division being that of floats.  The
    script divides after the guard of line 133 only, where [total] is
    positive; what pandas returns for a division by 0 is not modelled. *)
Definition percent (seats total : Z) : Q :=
  (inject_Z seats / inject_Z total * 100)%Q.

Definition comp_df (s : session) : list comp_row :=
  map (fun p =>
         let sw := get (party_counts_state s) p 0 in
         let fl := get (party_counts_filtered s) p 0 in
         mk_comp_row p sw fl
                     (percent sw (total_seats_state s))
                     (percent fl (total_seats_filtered s)))
      ["INC"; "BJP"; "JDS"; "Others"].

(** The third argument of the first metric. *)
Definition government_status (s : session) : result string :=
  c <- getitem (party_counts_state s) (winner_party_state s) ;;
  Ok (if majority_mark s <=? c then "Majority" else "Hung Assembly").

Definition close_threshold : Z := 2000.

(** The line that [to_csv] writes for one row, entry by entry: the
    numbers as numerals, the bucket as its label (no label of a bucket
    spells a number), the other entries as they are. *)
Definition written (r : row) : raw_row :=
  mk_raw_row (Constituency_ID r) (Constituency_Name r) (Winner_Name r)
             (Winner_Party r) (Text (Winner r) None) (Region r)
             (Num (Finite (inject_Z (Margin r))))
             (Num (Turnout_Percentage r))
             (Num (Finite (inject_Z (Seats r)))).

(** [frame.to_csv(index=False)]: the header and one line per row.  The
    text of the file is not modelled, only the entries that it spells. *)
Definition to_csv (frame : list row) : raw_frame :=
  mk_raw_frame required (map written frame).

(** What a view computes; charts, tables of the regional pivot and the
    mean and median turnout, which are formatted for display, are left
    out. *)
Inductive view : Type :=
| Summary (formed_by status : string) (inc_seats bjp_seats : Z)
          (comp : list comp_row)
| Regional (regional_df : list row)
| Constituencies (total close safe : Z) (swing_seats safe_seats : list row)
                 (csv : raw_frame).

Definition render (mode : view_mode) (s : session) : result view :=
  match mode with
  | ExecutiveSummary =>
      status <- government_status s ;;
      Ok (Summary (winner_party_state s) status
                  (get (party_counts_state s) "INC" 0)
                  (get (party_counts_state s) "BJP" 0)
                  (comp_df s))
  | RegionalDeepDive selected_region =>
      _ <- region_options (filtered s) ;;
      Ok (Regional (filter (fun r => series_eq (Region r) selected_region)
                           (filtered s)))
  | ConstituencyAnalysis =>
      let swing_seats := filter (fun r => Margin r <? close_threshold) (filtered s) in
      let safe_seats := filter (fun r => close_threshold <=? Margin r) (filtered s) in
      Ok (Constituencies (len (filtered s)) (len swing_seats) (len safe_seats)
                         swing_seats safe_seats (to_csv (filtered s)))
  end.

Definition no_data_message : string :=
  "No data matches the current filters. Relax the filters in the sidebar.".

(** Lines 127 to 145 on the loaded frame: the filter, the guard and the
    aggregations. *)
Definition aggregate (sel : selection) (d : list row) : result session :=
  let f := filtered_df sel d in
  match f with
  | [] => Stop no_data_message
  | _ :: _ =>
      let pcs := party_counts d in
      let total := len d in
      let mm := majority_mark_of total in
      wps <- idxmax pcs ;;
      Ok (mk_session d f pcs total mm wps (party_counts f) (len f))
  end.

(** One run of the script, from the frame that [pd.read_csv] returned to
    the values of the chosen view. *)
Definition app (mode : view_mode) (sel : selection) (csv : raw_frame)
  : result (session * view) :=
  d <- load_data csv ;;
  _ <- region_options d ;;
  s <- aggregate sel d ;;
  v <- render mode s ;;
  Ok (s, v).

(** ** Lemmas on the script *)

Lemma bind_Ok {A B : Type} (m : result A) (k : A -> result B) (b : B) :
  bind m k = Ok b <-> exists a, m = Ok a /\ k a = Ok b.
Proof.
  destruct m; simpl; split; try discriminate; eauto;
    try (intros [x [H _]]; discriminate).
  intros [x [H Hk]]. injection H as ->. exact Hk.
Qed.

Lemma fnum_leb_le (x y : fnum) : fnum_leb x y = true <-> fnum_le x y.
Proof.
  destruct x, y; simpl; try tauto; try (split; [discriminate|tauto]).
  apply Qle_bool_iff.
Qed.

Lemma isin_In {A : Type} (dec : forall a b : A, {a = b} + {a <> b})
  (v : A) (values : list A) : isin dec v values = true <-> In v values.
Proof.
  unfold isin. destruct (in_dec dec v values); split; auto; discriminate.
Qed.

(** The three predicates of the filter, on one row. *)
Definition selected (sel : selection) (r : row) : Prop :=
  In (Region r) (region_filter sel)
  /\ In (Winner r) (party_filter sel)
  /\ fnum_le (Finite (turnout_min sel)) (Turnout_Percentage r)
  /\ fnum_le (Turnout_Percentage r) (Finite (turnout_max sel)).

Lemma mask_selected (sel : selection) (r : row) :
  mask sel r = true <-> selected sel r.
Proof.
  unfold mask, between, selected.
  rewrite !andb_true_iff, !isin_In, !fnum_leb_le. tauto.
Qed.

Lemma idxmax_nonempty (s : Series) : s <> [] -> exists w, idxmax s = Ok w.
Proof.
  destruct s as [|e s]; [congruence|]. intros _. simpl. eauto.
Qed.

Lemma party_counts_nonempty (d : list row) : d <> [] -> party_counts d <> [].
Proof.
  destruct d as [|r d]; [congruence|]. intros _ H.
  assert (Hin : In (Winner r, count (Winner r) (map Winner (r :: d)))
                   (party_counts (r :: d))).
  { apply party_counts_In. simpl. auto. }
  rewrite H in Hin. exact Hin.
Qed.

Lemma filtered_df_incl (sel : selection) (d : list row) :
  filtered_df sel d <> [] -> d <> [].
Proof.
  destruct d; simpl; congruence.
Qed.

(** The aggregations go through exactly when the filtered frame has a
    row; the session then holds the values of lines 139 to 145. *)
Lemma aggregate_Ok (sel : selection) (d : list row) (s : session) :
  aggregate sel d = Ok s
  <-> filtered_df sel d <> []
      /\ exists w, idxmax (party_counts d) = Ok w
                   /\ s = mk_session d (filtered_df sel d) (party_counts d)
                                     (len d) (majority_mark_of (len d)) w
                                     (party_counts (filtered_df sel d))
                                     (len (filtered_df sel d)).
Proof.
  unfold aggregate.
  destruct (filtered_df sel d) as [|r f] eqn:E.
  - split; [discriminate|]. intros [H _]. congruence.
  - rewrite bind_Ok. split.
    + intros [w [Hw H]]. injection H as <-. split; [discriminate|]. eauto.
    + intros [_ [w [Hw ->]]]. eauto.
Qed.

Lemma aggregate_empty (sel : selection) (d : list row) :
  filtered_df sel d = [] -> aggregate sel d = Stop no_data_message.
Proof.
  unfold aggregate. intros ->. reflexivity.
Qed.


Lemma app_Ok (mode : view_mode) (sel : selection) (csv : raw_frame)
  (s : session) (v : view) :
  app mode sel csv = Ok (s, v)
  <-> exists d, load_data csv = Ok d /\ region_options d = Ok tt
                /\ aggregate sel d = Ok s /\ render mode s = Ok v.
Proof.
  unfold app. rewrite bind_Ok. split.
  - intros [d [Hd H]]. apply bind_Ok in H. destruct H as [[] [Ho H]].
    apply bind_Ok in H. destruct H as [s' [Hs H]].
    apply bind_Ok in H. destruct H as [v' [Hv H]]. injection H as <- <-.
    eauto 6.
  - intros [d (Hd & Ho & Hs & Hv)]. exists d. split; [exact Hd|].
    apply bind_Ok. exists tt. split; [exact Ho|].
    apply bind_Ok. exists s. split; [exact Hs|].
    apply bind_Ok. exists v. auto.
Qed.

Lemma len_pos {A : Type} (l : list A) : l <> [] -> 0 < len l.
Proof.
  destruct l; [congruence|]. unfold len. simpl. lia.
Qed.

(** C2. On every loaded dataset and for every selection, a row is in the
    filtered frame exactly when it is a row of the dataset whose region
    is among the selected regions, whose bucket is among the selected
    buckets and whose turnout lies between the two bounds, both
    included; and the run leaves [df] as it was loaded. *)
Theorem filter_sound_complete :
  forall (mode : view_mode) (sel : selection) (csv : raw_frame) (d : list row),
    load_data csv = Ok d ->
    (forall r, In r (filtered_df sel d) <-> In r d /\ selected sel r)
    /\ (forall s v, app mode sel csv = Ok (s, v) ->
                    df s = d /\ filtered s = filtered_df sel d).
Proof.
  intros mode sel csv d Hd. split.
  - intros r. unfold filtered_df. rewrite filter_In, mask_selected. tauto.
  - intros s v H. apply app_Ok in H. destruct H as [d' (Hd' & _ & Hs & _)].
    assert (d' = d) by congruence. subst d'.
    apply aggregate_Ok in Hs. destruct Hs as [_ [w [_ ->]]]. simpl. auto.
Qed.


(** ** A small dataset for the examples *)

Definition clean_line (id : Z) (party region : string) (margin : Z)
  (turnout : Q) : raw_row :=
  sample_line id party region (Num (Finite (inject_Z margin)))
              (Num (Finite turnout)) (Num (Finite 1)).

Definition sample_csv : raw_frame :=
  mk_raw_frame required
    [ clean_line 1 "Indian National Congress" "Coastal" 1200 (131 # 2);
      clean_line 2 "BJP" "Coastal" 5400 71;
      clean_line 3 "Janata Dal (Secular)" "Mysuru" 800 80;
      clean_line 4 "bjp" "Mysuru" 15000 (145 # 2);
      clean_line 5 "inc" "Bengaluru" 2000 55;
      clean_line 6 "IND" "Bengaluru" 300 (99 # 2) ].

Definition sample_df : list row := map load_row (raw_rows sample_csv).

(** Coastal and Mysuru, the buckets INC and BJP, turnout 60 to 75. *)
Definition sample_selection : selection :=
  mk_selection [Text "Coastal" None; Text "Mysuru" None] ["INC"; "BJP"] 60 75.

(** No region selected. *)
Definition empty_selection : selection :=
  mk_selection [] ["INC"; "BJP"; "JDS"; "Others"] 0 100.

Lemma sample_csv_loads : load_data sample_csv = Ok sample_df.
Proof. vm_compute. reflexivity. Qed.

Lemma filter_sound_complete_witness :
  (forall r, In r (filtered_df sample_selection sample_df)
             <-> In r sample_df /\ selected sample_selection r)
  /\ (forall s v, app ExecutiveSummary sample_selection sample_csv = Ok (s, v) ->
                  df s = sample_df
                  /\ filtered s = filtered_df sample_selection sample_df).
Proof.
  apply (filter_sound_complete ExecutiveSummary sample_selection sample_csv).
  vm_compute. reflexivity.
Defined.


(** ** The governing bucket *)

Lemma lookup_Some_In (k : string) (s : Series) (v : Z) :
  lookup k s = Some v -> In (k, v) s.
Proof.
  induction s as [|[k' v'] s IH]; simpl; [discriminate|].
  destruct (String.eqb_spec k k') as [->|Hne].
  - intros H. injection H as ->. now left.
  - intros H. right. now apply IH.
Qed.

Lemma lookup_None_notin (k : string) (s : Series) :
  lookup k s = None -> forall v, ~ In (k, v) s.
Proof.
  induction s as [|[k' v'] s IH]; simpl; [tauto|].
  destruct (String.eqb_spec k k') as [->|Hne]; [discriminate|].
  intros H v [Heq|Hin]; [congruence|]. now apply (IH H v).
Qed.

(** The sorted counts, read by label. *)
Lemma lookup_party_counts (d : list row) (p : string) :
  lookup p (party_counts d)
  = if in_dec string_dec p (map Winner d)
    then Some (count p (map Winner d)) else None.
Proof.
  unfold party_counts.
  destruct (lookup p (sort_index (value_counts (map Winner d)))) as [v|] eqn:E.
  - apply lookup_Some_In, party_counts_In in E. simpl in E.
    destruct E as [Hin ->]. destruct (in_dec string_dec p (map Winner d)); tauto.
  - destruct (in_dec string_dec p (map Winner d)) as [Hin|]; [|reflexivity].
    exfalso. apply (lookup_None_notin _ _ E (count p (map Winner d))).
    apply party_counts_In. simpl. auto.
Qed.

Lemma get_party_counts (d : list row) (p : string) :
  get (party_counts d) p 0 = count p (map Winner d).
Proof.
  unfold get. rewrite lookup_party_counts.
  destruct (in_dec string_dec p (map Winner d)) as [|Hn]; [reflexivity|].
  symmetry. unfold count. apply (count_occ_not_In string_dec) in Hn. lia.
Qed.

(** What [idxmax] of the sorted counts returns. *)
Lemma idxmax_party_counts (d : list row) (w : string) :
  idxmax (party_counts d) = Ok w ->
  let col := map Winner d in
  In w col
  /\ (forall b, count b col <= count w col)
  /\ (forall b, count b col = count w col -> String.leb w b = true).
Proof.
  intros H col.
  destruct (party_counts d) as [|e s] eqn:E; [discriminate|].
  simpl in H. injection H as <-.
  destruct (idxmax_from_first e s) as (l1 & l2 & c & Heq & H1 & H2).
  set (w := idxmax_from e s) in *.
  assert (Hent : forall x, In x (l1 ++ (w, c) :: l2)%list
                           <-> In (fst x) col /\ snd x = count (fst x) col).
  { intros x. rewrite <- Heq, <- E. apply party_counts_In. }
  assert (Hw : In w col /\ c = count w col).
  { apply (Hent (w, c)). apply in_elt. }
  destruct Hw as [Hw Hc].
  assert (Hsorted : Forall (fun x => String.leb w (fst x) = true) l2).
  { pose proof (sort_index_sorted (value_counts col)) as Hs.
    change (sort_index (value_counts col)) with (party_counts d) in Hs.
    rewrite E, Heq in Hs.
    apply StronglySorted_split in Hs. exact Hs. }
  rewrite Forall_forall in H1, H2, Hsorted.
  assert (Hle : forall b, In b col -> count b col <= c
                /\ (count b col = c -> String.leb w b = true)).
  { intros b Hb.
    assert (Hin : In (b, count b col) (l1 ++ (w, c) :: l2)%list)
      by (apply Hent; simpl; auto).
    apply in_app_or in Hin. destruct Hin as [Hin|[Hin|Hin]].
    - specialize (H1 _ Hin). simpl in H1. split; lia.
    - injection Hin as <- <-. split; [lia|].
      intros _. apply string_leb_refl.
    - split; [apply (H2 _ Hin)|]. intros _. apply (Hsorted _ Hin). }
  split; [exact Hw|]. split.
  - intros b. destruct (in_dec string_dec b col) as [Hb|Hb].
    + rewrite <- Hc. now apply Hle.
    + unfold count at 1. rewrite (proj1 (count_occ_not_In string_dec _ _) Hb).
      pose proof (count_nonneg w col). lia.
  - intros b Hb. apply Hle; [|lia].
    apply count_pos_In. rewrite Hb. now apply count_pos_In.
Qed.

(** C5. On a dataset with at least one row [idxmax] of the key-sorted
    counts returns a bucket: one that occurs in the Winner column, whose
    count no other value exceeds, and which stands first in string order
    among the values that reach the same count; this is the value the
    script keeps as [winner_party_state]. *)
Theorem governing_bucket_first_max :
  forall d : list row,
    d <> [] ->
    exists w : string,
      idxmax (party_counts d) = Ok w
      /\ (forall sel s, aggregate sel d = Ok s -> winner_party_state s = w)
      /\ In w (map Winner d)
      /\ (forall b, count b (map Winner d) <= count w (map Winner d))
      /\ (forall b, count b (map Winner d) = count w (map Winner d) ->
                    String.leb w b = true).
Proof.
  intros d Hd.
  destruct (idxmax_nonempty (party_counts d)) as [w Hw];
    [now apply party_counts_nonempty|].
  exists w. split; [exact Hw|]. split.
  - intros sel s Hs. apply aggregate_Ok in Hs.
    destruct Hs as [_ [w' [Hw' ->]]]. simpl. congruence.
  - now apply idxmax_party_counts.
Qed.

(** Two rows for INC and two for BJP: the tie goes to BJP. *)
Definition tied_df : list row :=
  map load_row
    [ clean_line 1 "INC" "Coastal" 100 70; clean_line 2 "BJP" "Coastal" 100 70;
      clean_line 3 "INC" "Mysuru" 100 70; clean_line 4 "BJP" "Mysuru" 100 70;
      clean_line 5 "JDS" "Mysuru" 100 70 ].

Lemma governing_bucket_first_max_witness :
  idxmax (party_counts tied_df) = Ok "BJP"
  /\ exists w : string,
      idxmax (party_counts tied_df) = Ok w
      /\ (forall sel s, aggregate sel tied_df = Ok s -> winner_party_state s = w)
      /\ In w (map Winner tied_df)
      /\ (forall b, count b (map Winner tied_df) <= count w (map Winner tied_df))
      /\ (forall b, count b (map Winner tied_df) = count w (map Winner tied_df) ->
                    String.leb w b = true).
Proof.
  split; [vm_compute; reflexivity|].
  apply (governing_bucket_first_max tied_df). discriminate.
Defined.

(** ** The majority mark and the status of the government *)

Lemma getitem_party_counts (d : list row) (w : string) :
  In w (map Winner d) ->
  getitem (party_counts d) w = Ok (count w (map Winner d)).
Proof.
  intros H. unfold getitem. rewrite lookup_party_counts.
  destruct (in_dec string_dec w (map Winner d)); tauto.
Qed.

Lemma count_two_le (b b' : string) (col : list string) :
  b <> b' -> count b col + count b' col <= len col.
Proof.
  intros Hne. unfold count, len.
  induction col as [|x col IH]; simpl; [lia|].
  destruct (string_dec x b), (string_dec x b'); subst; try congruence; lia.
Qed.

Lemma len_map {A B : Type} (f : A -> B) (l : list A) : len (map f l) = len l.
Proof. unfold len. now rewrite length_map. Qed.

(** The status that the first metric shows, for a session of the script. *)
Lemma government_status_aggregate (sel : selection) (d : list row) (s : session) :
  aggregate sel d = Ok s ->
  In (winner_party_state s) (map Winner d)
  /\ government_status s
     = Ok (if majority_mark s <=? count (winner_party_state s) (map Winner d)
           then "Majority" else "Hung Assembly").
Proof.
  intros H. apply aggregate_Ok in H. destruct H as [_ [w [Hw ->]]].
  unfold government_status. simpl.
  destruct (idxmax_party_counts d w Hw) as [Hin _].
  rewrite (getitem_party_counts d w Hin). simpl. auto.
Qed.

(** C6. In a session of the script the majority mark is the floor of
    half the number of rows, plus one (113 for 224 rows); the status is
    "Majority" exactly when the count of the governing bucket reaches
    the mark and "Hung Assembly" otherwise; on 224 rows with INC 135,
    BJP 66, JDS 19 and Others 4 the governing bucket is INC and the
    status is "Majority". *)
Theorem majority_threshold_status :
  forall (sel : selection) (d : list row) (s : session),
    aggregate sel d = Ok s ->
    let col := map Winner d in
    let c := count (winner_party_state s) col in
    majority_mark s = len d / 2 + 1
    /\ 2 * (majority_mark s - 1) <= len d < 2 * majority_mark s
    /\ majority_mark_of 224 = 113
    /\ (government_status s = Ok "Majority" <-> majority_mark s <= c)
    /\ (government_status s = Ok "Hung Assembly" <-> c < majority_mark s)
    /\ (len d = 224 -> count "INC" col = 135 -> count "BJP" col = 66 ->
        count "JDS" col = 19 -> count "Others" col = 4 ->
        winner_party_state s = "INC" /\ government_status s = Ok "Majority").
Proof.
  intros sel d s H col c.
  destruct (government_status_aggregate sel d s H) as [Hin Hst].
  fold col in Hin, Hst. fold c in Hst.
  pose proof H as H'. apply aggregate_Ok in H'.
  destruct H' as [_ [w [Hw Hs]]].
  assert (Hmm : majority_mark s = len d / 2 + 1) by (subst s; reflexivity).
  assert (Hws : winner_party_state s = w) by (subst s; reflexivity).
  destruct (idxmax_party_counts d w Hw) as (_ & Hmax & _).
  fold col in Hmax. rewrite <- Hws in Hmax. fold c in Hmax.
  split; [exact Hmm|]. split.
  { rewrite Hmm. pose proof (Z.div_mod (len d) 2 ltac:(lia)).
    pose proof (Z.mod_pos_bound (len d) 2 ltac:(lia)). lia. }
  split; [reflexivity|].
  assert (Hscen : len d = 224 -> count "INC" col = 135 ->
                  winner_party_state s = "INC").
  { intros Hn HI.
    destruct (string_dec (winner_party_state s) "INC") as [|Hne]; [assumption|].
    exfalso. pose proof (count_two_le _ _ col Hne) as H2.
    unfold col in H2 at 3. rewrite len_map in H2. fold c in H2.
    specialize (Hmax "INC"). lia. }
  rewrite Hst.
  destruct (Z.leb_spec (majority_mark s) c) as [Hle|Hlt].
  - split; [tauto|]. split; [split; [discriminate|lia]|].
    intros Hn HI _ _ _. split; [now apply Hscen|reflexivity].
  - split; [split; [discriminate|lia]|]. split; [tauto|].
    intros Hn HI _ _ _. exfalso.
    specialize (Hmax "INC"). rewrite Hmm, Hn in Hlt.
    change (224 / 2 + 1) with 113 in Hlt. lia.
Qed.

(** The result of 2023: 224 lines, 135 for the Congress, 66 for the BJP,
    19 for the JD(S) and 4 for others. *)
Definition lines (party : string) (first n : nat) : list raw_row :=
  map (fun i => clean_line (Z.of_nat i) party "Karnataka" 5000 70)
      (seq first n).

Definition result_2023_csv : raw_frame :=
  mk_raw_frame required
    (lines "Indian National Congress" 1 135
     ++ lines "Bharatiya Janata Party" 136 66
     ++ lines "Janata Dal (Secular)" 202 19
     ++ lines "Independent" 221 4)%list.

Definition result_2023 : list row := map load_row (raw_rows result_2023_csv).

Definition all_selection : selection :=
  mk_selection [Text "Karnataka" None] ["INC"; "BJP"; "JDS"; "Others"] 0 100.

Definition session_2023 : session :=
  mk_session result_2023 (filtered_df all_selection result_2023)
             (party_counts result_2023) 224 113 "INC"
             (party_counts (filtered_df all_selection result_2023)) 224.

Lemma majority_threshold_status_witness :
  aggregate all_selection result_2023 = Ok session_2023
  /\ majority_mark session_2023 = len result_2023 / 2 + 1
  /\ winner_party_state session_2023 = "INC"
  /\ government_status session_2023 = Ok "Majority".
Proof.
  assert (H : aggregate all_selection result_2023 = Ok session_2023)
    by (vm_compute; reflexivity).
  split; [exact H|].
  destruct (majority_threshold_status all_selection result_2023 session_2023 H)
    as (Hm & _ & _ & _ & _ & Hsc).
  split; [exact Hm|].
  apply Hsc; vm_compute; reflexivity.
Defined.

(** ** The comparative seat share *)



Lemma count_buckets_sum (col : list string) :
  Forall (fun w => In w buckets) col ->
  count "INC" col + count "BJP" col + count "JDS" col + count "Others" col
  = len col.
Proof.
  unfold count, len. induction 1 as [|w col Hw _ IH]; [reflexivity|].
  cbn [count_occ length].
  destruct Hw as [<-|[<-|[<-|[<-|[]]]]];
    repeat match goal with
           | |- context [string_dec ?a ?b] =>
               destruct (string_dec a b); try discriminate
           end; try congruence; lia.
Qed.

Lemma apply_norm_party_bucket (c : cell) : In (apply_norm_party c) buckets.
Proof.
  destruct c; simpl apply_norm_party;
    [right; right; right; now left | apply norm_party_in_buckets
     | apply norm_party_in_buckets].
Qed.

(** Every row of a loaded frame holds one of the four buckets. *)
Lemma loaded_winner_bucket (csv : raw_frame) (d : list row) :
  load_data csv = Ok d -> Forall (fun r => In (Winner r) buckets) d.
Proof.
  intros H. apply load_data_rows in H. subst d.
  apply Forall_forall. intros r Hr. apply in_map_iff in Hr.
  destruct Hr as [l [<- _]]. apply apply_norm_party_bucket.
Qed.

Lemma Forall_map_iff {A B : Type} (P : B -> Prop) (f : A -> B) (l : list A) :
  Forall P (map f l) <-> Forall (fun a => P (f a)) l.
Proof. apply Forall_map. Qed.









(** ** The statewide values and the filter *)

(** C10. Two runs of the script on the same file that both reach a view,
    whatever their selections and views, hold the same frame, the same
    statewide counts, the same number of seats, the same majority mark,
    the same governing bucket and the same status of the government. *)
Theorem statewide_independent_of_filter :
  forall (mode1 mode2 : view_mode) (sel1 sel2 : selection) (csv : raw_frame)
         (s1 s2 : session) (v1 v2 : view),
    app mode1 sel1 csv = Ok (s1, v1) ->
    app mode2 sel2 csv = Ok (s2, v2) ->
    df s1 = df s2
    /\ party_counts_state s1 = party_counts_state s2
    /\ total_seats_state s1 = total_seats_state s2
    /\ majority_mark s1 = majority_mark s2
    /\ winner_party_state s1 = winner_party_state s2
    /\ government_status s1 = government_status s2.
Proof.
  intros mode1 mode2 sel1 sel2 csv s1 s2 v1 v2 H1 H2.
  apply app_Ok in H1, H2.
  destruct H1 as [d1 (Hd1 & _ & Hs1 & _)].
  destruct H2 as [d2 (Hd2 & _ & Hs2 & _)].
  assert (d2 = d1) by congruence. subst d2.
  apply aggregate_Ok in Hs1, Hs2.
  destruct Hs1 as [_ [w1 [Hw1 ->]]]. destruct Hs2 as [_ [w2 [Hw2 ->]]].
  assert (w2 = w1) by congruence. subst w2.
  unfold government_status. simpl. repeat split.
Qed.

Definition bengaluru_selection : selection :=
  mk_selection [Text "Bengaluru" None] ["INC"; "BJP"; "JDS"; "Others"] 0 100.

Lemma statewide_independent_of_filter_witness :
  exists s1 v1 s2 v2,
    app ExecutiveSummary sample_selection sample_csv = Ok (s1, v1)
    /\ app ConstituencyAnalysis bengaluru_selection sample_csv = Ok (s2, v2)
    /\ df s1 = df s2
    /\ party_counts_state s1 = party_counts_state s2
    /\ total_seats_state s1 = total_seats_state s2
    /\ majority_mark s1 = majority_mark s2
    /\ winner_party_state s1 = winner_party_state s2
    /\ government_status s1 = government_status s2.
Proof.
  destruct (app ExecutiveSummary sample_selection sample_csv)
    as [[s1 v1]| | |] eqn:E1; try (vm_compute in E1; discriminate).
  destruct (app ConstituencyAnalysis bengaluru_selection sample_csv)
    as [[s2 v2]| | |] eqn:E2; try (vm_compute in E2; discriminate).
  exists s1, v1, s2, v2. split; [reflexivity|]. split; [reflexivity|].
  exact (statewide_independent_of_filter _ _ _ _ _ _ _ _ _ E1 E2).
Defined.

(** ** Reading the exported file back *)

(** An entry that spells a number or is missing: a column of such
    entries is read as a numeric column. *)
Definition numeric_entry (c : cell) : bool :=
  match c with
  | Num _ => true
  | Text _ (Some _) => true
  | Text _ None => false
  | NaN => true
  end.

(** Whether [pd.read_csv] reads the column [col] of the lines [rs] as a
    numeric column. *)
Definition numeric_column (col : raw_row -> cell) (rs : list raw_row) : bool :=
  forallb (fun r => numeric_entry (col r)) rs.

(** One entry as [pd.read_csv] returns it: in a numeric column text that
    spells a number is that number; in a column of object dtype the
    entries are kept.  (A column of object dtype holds no number when it
    comes from a file, so that [Num] does not meet [numeric = false].) *)
Definition read_entry (numeric : bool) (c : cell) : cell :=
  match c with
  | Text _ (Some x) => if numeric then Num x else c
  | _ => c
  end.

(** One line as [pd.read_csv] returns it, [rs] being all the lines of
    the file. *)
Definition read_line (rs : list raw_row) (r : raw_row) : raw_row :=
  let rd col := read_entry (numeric_column col rs) (col r) in
  mk_raw_row (rd raw_Constituency_ID) (rd raw_Constituency_Name)
             (rd raw_Winner_Name) (rd raw_Winner_Party) (rd raw_Winner)
             (rd raw_Region) (rd raw_Margin) (rd raw_Turnout_Percentage)
             (rd raw_Seats).

(** [pd.read_csv] on a file given by its entries: the type of each
    column is inferred from all its entries.  Only the inference of
    numbers is modelled. *)
Definition read_csv (file : raw_frame) : raw_frame :=
  mk_raw_frame (raw_columns file)
               (map (read_line (raw_rows file)) (raw_rows file)).







(** ** Lemmas on the round trip *)

Lemma norm_party_bucket (b : string) : In b buckets -> norm_party b = b.
Proof.
  intros [<-|[<-|[<-|[<-|[]]]]]; vm_compute; reflexivity.
Qed.










(** A file whose Constituency_ID column is of object dtype: one entry
    spells the number 7, the other spells no number. *)
Definition mixed_id_csv : raw_frame :=
  mk_raw_frame required
    [ mk_raw_row (Text "7" (Some (Finite 7))) (Text "Udupi" None)
                 (Text "Candidate" None) (Text "INC" None) (Text "INC" None)
                 (Text "Coastal" None) (Num (Finite 1200)) (Num (Finite 70))
                 (Num (Finite 1));
      mk_raw_row (Text "A7" None) (Text "Mandya" None)
                 (Text "Candidate" None) (Text "JD(S)" None) (Text "JD(S)" None)
                 (Text "Mysuru" None) (Num (Finite 900)) (Num (Finite 80))
                 (Num (Finite 1)) ].

(** It is a frame that [pd.read_csv] returns. *)
Lemma mixed_id_csv_read : read_csv mixed_id_csv = mixed_id_csv.
Proof. vm_compute. reflexivity. Qed.

Definition coastal_selection : selection :=
  mk_selection [Text "Coastal" None] ["INC"; "BJP"; "JDS"; "Others"] 0 100.


(** * Further properties of the pipeline *)

(** ** The loader: schema check, rows, buckets, failures *)

(** The list [missing] of [load_data]. *)
Definition missing_columns (csv : raw_frame) : list string :=
  filter (fun c => negb (has_column (raw_columns csv) c)) required.

Lemma astype_int_not_Stop (col : list fnum) (msg : string) :
  astype_int col <> Stop msg.
Proof.
  unfold astype_int.
  destruct (forallb is_finite col);
    [destruct (forallb (fun x => in_int64 (trunc x)) col)|]; discriminate.
Qed.

(** X1. [load_data] stops exactly when a required column is absent from
    the header, whatever the lines hold; the message then lists the
    absent columns, which are the required names that the header lacks,
    in the order of [required]. *)
Theorem load_data_schema_stop :
  forall csv : raw_frame,
    (forall msg, load_data csv = Stop msg
                 <-> missing_columns csv <> []
                     /\ msg = "CSV is missing required columns: "
                              ++ repr_list (missing_columns csv))
    /\ (forall c, In c (missing_columns csv)
                  <-> In c required /\ ~ In c (raw_columns csv))
    /\ (missing_columns csv = [] <-> incl required (raw_columns csv)).
Proof.
  intros csv. split; [|split].
  - intros msg. unfold load_data. fold (missing_columns csv).
    destruct (missing_columns csv) as [|c l].
    + split; [|intros [H _]; congruence].
      destruct (astype_int (map margin_float (raw_rows csv))) eqn:Em;
        simpl; try discriminate;
        [|exfalso; eapply astype_int_not_Stop; eauto].
      destruct (astype_int (map seats_float (raw_rows csv))) eqn:Es;
        simpl; try discriminate.
      exfalso; eapply astype_int_not_Stop; eauto.
    + split.
      * intros H. injection H as <-. split; [discriminate|reflexivity].
      * intros [_ ->]. reflexivity.
  - intros c. unfold missing_columns, has_column. rewrite filter_In.
    destruct (in_dec string_dec c (raw_columns csv)); simpl; intuition congruence.
  - unfold missing_columns. rewrite <- schema_ok_missing.
    rewrite forallb_forall. unfold incl, has_column. split.
    + intros H c Hc. specialize (H c Hc).
      destruct (in_dec string_dec c (raw_columns csv)); [assumption|discriminate].
    + intros H c Hc. specialize (H c Hc).
      destruct (in_dec string_dec c (raw_columns csv)); [reflexivity|contradiction].
Qed.

(** The five columns that the loader leaves alone, on one line and the
    row it becomes. *)
Definition untouched (r : raw_row) (l : row) : Prop :=
  Constituency_ID l = raw_Constituency_ID r
  /\ Constituency_Name l = raw_Constituency_Name r
  /\ Winner_Name l = raw_Winner_Name r
  /\ Winner_Party l = raw_Winner_Party r
  /\ Region l = raw_Region r.

(** X2. A successful load keeps every line: the frame has as many rows
    as the file has lines, in the same order, and each row holds the
    entries of its line in the five columns that the loader does not
    convert. *)
Theorem load_data_keeps_rows :
  forall (csv : raw_frame) (d : list row),
    load_data csv = Ok d ->
    len d = len (raw_rows csv) /\ Forall2 untouched (raw_rows csv) d.
Proof.
  intros csv d H. apply load_data_rows in H. subst d. split.
  - apply len_map.
  - apply Forall2_map_r. intros r _. unfold untouched. simpl. auto.
Qed.

Lemma load_data_keeps_rows_witness :
  load_data dirty_csv = Ok (map load_row (raw_rows dirty_csv))
  /\ len (map load_row (raw_rows dirty_csv)) = len (raw_rows dirty_csv)
  /\ Forall2 untouched (raw_rows dirty_csv) (map load_row (raw_rows dirty_csv)).
Proof.
  split; [vm_compute; reflexivity|].
  apply (load_data_keeps_rows dirty_csv). vm_compute. reflexivity.
Defined.

(** X3. In a loaded frame and in every filtered frame of it the Winner
    of each row is one of the four buckets; the statewide counts
    therefore have at most four entries, each labelled by a bucket. *)
Theorem loaded_buckets_only :
  forall (csv : raw_frame) (d : list row),
    load_data csv = Ok d ->
    (forall r, In r d -> In (Winner r) buckets)
    /\ (forall sel r, In r (filtered_df sel d) -> In (Winner r) buckets)
    /\ (forall e, In e (party_counts d) -> In (fst e) buckets)
    /\ (length (party_counts d) <= 4)%nat.
Proof.
  intros csv d H.
  pose proof (loaded_winner_bucket csv d H) as Hb. rewrite Forall_forall in Hb.
  assert (Hk : forall e, In e (party_counts d) -> In (fst e) buckets).
  { intros e He. apply party_counts_In in He. destruct He as [He _].
    apply in_map_iff in He. destruct He as [r [<- Hr]]. auto. }
  split; [exact Hb|]. split; [|split; [exact Hk|]].
  - intros sel r Hr. apply Hb. unfold filtered_df in Hr.
    apply filter_In in Hr. tauto.
  - rewrite <- (length_map fst).
    change 4%nat with (length buckets).
    apply NoDup_incl_length; [apply party_counts_keys_NoDup|].
    intros k Hk'. apply in_map_iff in Hk'. destruct Hk' as [e [<- He]]. auto.
Qed.

Lemma loaded_buckets_only_witness :
  (forall r, In r sample_df -> In (Winner r) buckets)
  /\ (forall sel r, In r (filtered_df sel sample_df) -> In (Winner r) buckets)
  /\ (forall e, In e (party_counts sample_df) -> In (fst e) buckets)
  /\ (length (party_counts sample_df) <= 4)%nat.
Proof.
  apply (loaded_buckets_only sample_csv). vm_compute. reflexivity.
Defined.

Lemma forallb_false_exists {A : Type} (f : A -> bool) (l : list A) :
  (exists x, In x l /\ f x = false) -> forallb f l = false.
Proof.
  intros [x [Hx Hf]]. destruct (forallb f l) eqn:E; [|reflexivity].
  rewrite forallb_forall in E. specialize (E x Hx). congruence.
Qed.

(** X4. A Margin entry that is an infinity is not coerced: with a
    complete header the load raises IntCastingNaNError; so does an
    infinite Seats entry when the Margin column converts. *)
Theorem load_data_infinite_raises :
  forall csv : raw_frame,
    schema_ok csv = true ->
    (exists r, In r (raw_rows csv) /\ is_finite (margin_float r) = false)
    \/ (forallb castable (map margin_float (raw_rows csv)) = true
        /\ exists r, In r (raw_rows csv) /\ is_finite (seats_float r) = false) ->
    load_data csv = Raise "IntCastingNaNError".
Proof.
  intros csv Hs H. unfold load_data.
  apply schema_ok_missing in Hs. rewrite Hs.
  destruct H as [[r [Hr Hf]]|[Hm [r [Hr Hf]]]].
  - unfold astype_int at 1.
    rewrite (forallb_false_exists is_finite (map margin_float (raw_rows csv))).
    + reflexivity.
    + exists (margin_float r). split; [now apply in_map|exact Hf].
  - rewrite (proj2 (astype_int_Ok _ _) (conj Hm eq_refl)). simpl.
    unfold astype_int.
    rewrite (forallb_false_exists is_finite (map seats_float (raw_rows csv))).
    + reflexivity.
    + exists (seats_float r). split; [now apply in_map|exact Hf].
Qed.

Definition infinite_margin_csv : raw_frame :=
  mk_raw_frame required
    [ clean_line 1 "INC" "Coastal" 1200 70;
      sample_line 2 "BJP" "Coastal" (Text "inf" (Some PosInf))
                  (Num (Finite 70)) (Num (Finite 1)) ].

Lemma load_data_infinite_raises_witness :
  load_data infinite_margin_csv = Raise "IntCastingNaNError".
Proof.
  apply (load_data_infinite_raises infinite_margin_csv).
  - reflexivity.
  - left. eexists. split; [right; left; reflexivity|reflexivity].
Defined.

(** ** [norm_party]: idempotence, case and blanks *)

(** X5. Normalising twice is normalising once. *)
Theorem norm_party_idempotent :
  forall p : string, norm_party (norm_party p) = norm_party p.
Proof.
  intros p. apply norm_party_bucket, norm_party_in_buckets.
Qed.














(** ** The filter: composition, widening, defaults, empty choices *)

Lemma filter_filter {A : Type} (f g : A -> bool) (l : list A) :
  filter f (filter g l) = filter (fun x => g x && f x) l.
Proof.
  induction l as [|x l IH]; simpl; [reflexivity|].
  destruct (g x); simpl; [destruct (f x)|]; now rewrite IH.
Qed.

Lemma filter_len_le {A : Type} (f : A -> bool) (l : list A) :
  len (filter f l) <= len l.
Proof.
  unfold len. induction l as [|x l IH]; simpl; [lia|].
  destruct (f x); simpl; lia.
Qed.

Definition all_coastal_mysuru : selection :=
  mk_selection [Text "Coastal" None; Text "Mysuru" None]
               ["INC"; "BJP"; "JDS"; "Others"] 0 100.

(** X7. Filtering a filtered frame again with the same selection changes
    nothing, two selections can be applied in either order, and a
    filtered frame never has more rows than the frame it comes from. *)
Theorem filtered_df_composes :
  forall (sel1 sel2 : selection) (d : list row),
    filtered_df sel1 (filtered_df sel1 d) = filtered_df sel1 d
    /\ filtered_df sel1 (filtered_df sel2 d) = filtered_df sel2 (filtered_df sel1 d)
    /\ len (filtered_df sel1 d) <= len d.
Proof.
  intros sel1 sel2 d. unfold filtered_df. rewrite !filter_filter.
  split; [|split].
  - apply filter_ext. intros r. now destruct (mask sel1 r).
  - apply filter_ext. intros r. apply andb_comm.
  - apply filter_len_le.
Qed.

(** [sel'] selects no more than [sel]. *)
Definition narrower (sel' sel : selection) : Prop :=
  incl (region_filter sel') (region_filter sel)
  /\ incl (party_filter sel') (party_filter sel)
  /\ (turnout_min sel <= turnout_min sel')%Q
  /\ (turnout_max sel' <= turnout_max sel)%Q.

Lemma fnum_le_trans (x y z : fnum) : fnum_le x y -> fnum_le y z -> fnum_le x z.
Proof.
  destruct x, y, z; simpl; try tauto. apply Qle_trans.
Qed.

(** X8. Narrowing the selection (fewer regions, fewer buckets, a turnout
    range inside the former one) only removes rows: the narrower
    filtered frame is the narrower filter applied to the wider filtered
    frame, and each of its rows is a row of the wider one. *)
Theorem filtered_df_narrowing :
  forall (sel' sel : selection) (d : list row),
    narrower sel' sel ->
    filtered_df sel' d = filtered_df sel' (filtered_df sel d)
    /\ (forall r, In r (filtered_df sel' d) -> In r (filtered_df sel d)).
Proof.
  intros sel' sel d (Hr & Hp & Hlo & Hhi).
  assert (Himp : forall r, mask sel' r = true -> mask sel r = true).
  { intros r. rewrite !mask_selected. unfold selected.
    intros (H1 & H2 & H3 & H4). repeat split; auto.
    - eapply fnum_le_trans; [|exact H3]. exact Hlo.
    - eapply fnum_le_trans; [exact H4|]. exact Hhi. }
  split.
  - unfold filtered_df. rewrite filter_filter. apply filter_ext. intros r.
    specialize (Himp r). destruct (mask sel' r), (mask sel r);
      try reflexivity. discriminate (Himp eq_refl).
  - intros r. unfold filtered_df. rewrite !filter_In. intuition.
Qed.

Lemma filtered_df_narrowing_witness :
  narrower coastal_selection all_coastal_mysuru
  /\ filtered_df coastal_selection sample_df
     = filtered_df coastal_selection (filtered_df all_coastal_mysuru sample_df).
Proof.
  assert (H : narrower coastal_selection all_coastal_mysuru).
  { repeat split; try (intros x [<-|[]]; simpl; auto); discriminate. }
  split; [exact H|].
  exact (proj1 (filtered_df_narrowing coastal_selection all_coastal_mysuru
                                      sample_df H)).
Defined.

(** X9. With the default choices of the sidebar nothing is filtered out:
    when the selected regions comprise every region of the loaded frame,
    the selected buckets the four buckets, and the turnout range every
    turnout of the frame, the filtered frame is the frame. *)
Theorem default_selection_keeps_all :
  forall (csv : raw_frame) (d : list row) (sel : selection),
    load_data csv = Ok d ->
    (forall r, In r d -> In (Region r) (region_filter sel)) ->
    incl buckets (party_filter sel) ->
    (forall r, In r d ->
               fnum_le (Finite (turnout_min sel)) (Turnout_Percentage r)
               /\ fnum_le (Turnout_Percentage r) (Finite (turnout_max sel))) ->
    filtered_df sel d = d.
Proof.
  intros csv d sel Hd Hr Hp Ht.
  pose proof (loaded_winner_bucket csv d Hd) as Hb. rewrite Forall_forall in Hb.
  unfold filtered_df. apply forallb_filter_id. apply forallb_forall.
  intros r Hin. apply mask_selected. unfold selected.
  destruct (Ht r Hin). repeat split; auto.
Qed.

Definition default_selection : selection :=
  mk_selection [Text "Bengaluru" None; Text "Coastal" None; Text "Mysuru" None]
               ["INC"; "BJP"; "JDS"; "Others"] 0 100.

Lemma default_selection_keeps_all_witness :
  filtered_df default_selection sample_df = sample_df.
Proof.
  apply (default_selection_keeps_all sample_csv sample_df default_selection).
  - vm_compute. reflexivity.
  - intros r Hr. apply (isin_In cell_eq_dec). revert r Hr.
    apply forallb_forall. vm_compute. reflexivity.
  - intros b Hb. exact Hb.
  - intros r Hr. rewrite <- !fnum_leb_le. apply andb_true_iff. revert r Hr.
    apply forallb_forall. vm_compute. reflexivity.
Defined.

(** X10. A selection that can hold no row (no region chosen, no bucket
    chosen, or an upper turnout bound below the lower one) gives an empty
    filtered frame on every frame, and the script stops with the message
    of line 134. *)
Theorem empty_choice_stops :
  forall (sel : selection) (d : list row),
    region_filter sel = [] \/ party_filter sel = []
    \/ (turnout_max sel < turnout_min sel)%Q ->
    filtered_df sel d = [] /\ aggregate sel d = Stop no_data_message.
Proof.
  intros sel d H.
  assert (He : filtered_df sel d = []).
  { unfold filtered_df.
    destruct (filter (mask sel) d) as [|r f] eqn:E; [reflexivity|].
    assert (Hr : In r (filter (mask sel) d)) by (rewrite E; now left).
    apply filter_In in Hr. destruct Hr as [_ Hr].
    apply mask_selected in Hr. destruct Hr as (H1 & H2 & H3 & H4).
    exfalso. destruct H as [H|[H|H]].
    - rewrite H in H1. exact H1.
    - rewrite H in H2. exact H2.
    - pose proof (fnum_le_trans _ _ _ H3 H4) as Hle. simpl in Hle.
      apply (Qlt_not_le _ _ H Hle). }
  split; [exact He|]. now apply aggregate_empty.
Qed.

Lemma empty_choice_stops_witness :
  filtered_df empty_selection sample_df = []
  /\ aggregate empty_selection sample_df = Stop no_data_message.
Proof.
  apply (empty_choice_stops empty_selection sample_df). left. reflexivity.
Defined.

(** ** The counts: total, shape, lookups *)

(** The sum of the values of a Series. *)
Definition Series_sum (s : Series) : Z :=
  fold_right (fun e acc => snd e + acc) 0 s.

Lemma Series_sum_perm (s t : Series) :
  Permutation s t -> Series_sum s = Series_sum t.
Proof.
  induction 1; simpl; lia.
Qed.

Definition counts_of (col : list string) (vals : list string) : Series :=
  map (fun v => (v, count v col)) vals.

Lemma counts_of_cons (col : list string) (v : string) (vals : list string) :
  Series_sum (counts_of col (v :: vals))
  = count v col + Series_sum (counts_of col vals).
Proof. reflexivity. Qed.

Lemma count_cons_other (x v : string) (col : list string) :
  x <> v -> count v (x :: col) = count v col.
Proof.
  intros H. unfold count. cbn [count_occ].
  destruct (string_dec x v); [contradiction|reflexivity].
Qed.

Lemma counts_of_cons_notin (x : string) (col vals : list string) :
  ~ In x vals ->
  Series_sum (counts_of (x :: col) vals) = Series_sum (counts_of col vals).
Proof.
  induction vals as [|v vals IH]; [reflexivity|].
  intros H. rewrite !counts_of_cons, IH by (simpl in H; tauto).
  rewrite count_cons_other; [reflexivity|].
  intros ->. apply H. now left.
Qed.

Lemma counts_of_filter (x : string) (col vals : list string) :
  NoDup vals ->
  Series_sum (counts_of col vals)
  = (if in_dec string_dec x vals then count x col else 0)
    + Series_sum (counts_of col (filter (fun y => negb (y =? x)%string) vals)).
Proof.
  induction 1 as [|v vals Hv Hnd IH]; [reflexivity|].
  rewrite counts_of_cons, IH. cbn [filter].
  destruct (String.eqb_spec v x) as [->|Hne]; cbn [negb].
  - destruct (in_dec string_dec x (x :: vals)) as [_|Hn];
      [|exfalso; apply Hn; now left].
    destruct (in_dec string_dec x vals); [contradiction|]. lia.
  - rewrite counts_of_cons.
    destruct (in_dec string_dec x (v :: vals)) as [[Heq|Hin]|Hn];
      destruct (in_dec string_dec x vals) as [Hin'|Hn'];
      try congruence; try lia; try contradiction.
    exfalso. apply Hn. now right.
Qed.

Lemma count_cons_same (x : string) (col : list string) :
  count x (x :: col) = 1 + count x col.
Proof.
  unfold count. cbn [count_occ].
  destruct (string_dec x x) as [_|]; [lia|congruence].
Qed.

Lemma counts_of_unique (col : list string) :
  Series_sum (counts_of col (unique col)) = len col.
Proof.
  induction col as [|x col IH]; [reflexivity|].
  cbn [unique]. rewrite counts_of_cons, count_cons_same.
  rewrite counts_of_cons_notin.
  - pose proof (counts_of_filter x col (unique col) (unique_NoDup col)) as H.
    rewrite IH in H.
    assert (Hl : len (x :: col) = 1 + len col)
      by (unfold len; cbn [length]; lia).
    rewrite Hl.
    destruct (in_dec string_dec x (unique col)) as [Hin|Hn]; [lia|].
    rewrite unique_In in Hn.
    apply (count_occ_not_In string_dec) in Hn.
    unfold count at 1. lia.
  - rewrite filter_In, String.eqb_refl. simpl. intros [_ H]. discriminate.
Qed.

(** X11. The counts add up to the number of rows: the values of
    [value_counts().sort_index()] over the Winner column of any frame,
    full or filtered, sum to its length. *)
Theorem party_counts_total :
  forall d : list row, Series_sum (party_counts d) = len d.
Proof.
  intros d. unfold party_counts, sort_index, value_counts.
  rewrite <- (Series_sum_perm _ _ (sort_by_perm _ _)).
  rewrite <- (Series_sum_perm _ _ (sort_by_perm _ _)).
  fold (counts_of (map Winner d) (unique (map Winner d))).
  rewrite counts_of_unique. apply len_map.
Qed.

Lemma string_leb_neq_ltb (a b : string) :
  String.leb a b = true -> a <> b -> String.ltb a b = true.
Proof.
  unfold String.leb, String.ltb. intros H Hne.
  destruct (String.compare a b) eqn:E; try reflexivity; try discriminate.
  apply String.compare_eq_iff in E. contradiction.
Qed.

Lemma sorted_NoDup_strict (s : Series) :
  StronglySorted (fun a b => String.leb (fst a) (fst b) = true) s ->
  NoDup (map fst s) ->
  StronglySorted (fun a b => String.ltb (fst a) (fst b) = true) s.
Proof.
  induction 1 as [|e s Hs IH He]; simpl; intros Hnd; constructor.
  - apply IH. now inversion Hnd.
  - inversion Hnd as [|? ? Hnotin _]; subst.
    rewrite Forall_forall in *. intros x Hx.
    apply string_leb_neq_ltb; [now apply He|].
    intros Heq. apply Hnotin. rewrite Heq. now apply in_map.
Qed.

(** X12. The counts are displayed in a fixed order: the labels of
    [value_counts().sort_index()] are strictly increasing in string
    order (no label twice), they are the values that occur in the Winner
    column, and each is paired with its positive number of rows. *)
Theorem party_counts_shape :
  forall d : list row,
    StronglySorted (fun a b => String.ltb (fst a) (fst b) = true)
                   (party_counts d)
    /\ NoDup (map fst (party_counts d))
    /\ (forall k v, In (k, v) (party_counts d)
                    <-> In k (map Winner d) /\ v = count k (map Winner d))
    /\ (forall e, In e (party_counts d) -> 0 < snd e).
Proof.
  intros d.
  pose proof (party_counts_keys_NoDup (map Winner d)) as Hnd.
  split; [|split; [exact Hnd|split]].
  - apply sorted_NoDup_strict; [apply sort_index_sorted|exact Hnd].
  - intros k v. apply (party_counts_In (map Winner d) (k, v)).
  - intros e He. apply party_counts_In in He. destruct He as [Hin ->].
    now apply count_pos_In.
Qed.

(** X13. Reading the counts by label: [s.get(p, 0)] is the number of
    rows of [p], 0 for a label without rows; [s[p]] is that number for a
    label with rows and raises KeyError for a label without. *)
Theorem party_counts_lookups :
  forall (d : list row) (p : string),
    get (party_counts d) p 0 = count p (map Winner d)
    /\ (getitem (party_counts d) p = Raise "KeyError"
        <-> ~ In p (map Winner d))
    /\ (forall c, getitem (party_counts d) p = Ok c
                  <-> In p (map Winner d) /\ c = count p (map Winner d))
    /\ (get (party_counts d) p 0 = 0 <-> ~ In p (map Winner d)).
Proof.
  intros d p. split; [apply get_party_counts|].
  unfold getitem. rewrite get_party_counts, lookup_party_counts.
  destruct (in_dec string_dec p (map Winner d)) as [Hin|Hn].
  - pose proof (proj2 (count_pos_In p (map Winner d)) Hin) as Hpos.
    split; [split; [discriminate|tauto]|]. split.
    + intros c. split; [intros H; injection H as <-; auto|].
      intros [_ ->]. reflexivity.
    + split; [lia|tauto].
  - split; [tauto|]. split.
    + intros c. split; [discriminate|tauto].
    + split; [tauto|]. intros _.
      unfold count. apply (count_occ_not_In string_dec) in Hn. lia.
Qed.

(** ** The run as a whole *)






(** X15. A majority is unambiguous: in a session of the script only the
    governing bucket can reach the majority mark, so the status is "Hung
    Assembly" exactly when no label at all reaches it; and on a loaded
    frame the governing bucket holds at least a quarter of the rows. *)
Theorem majority_is_unique :
  forall (sel : selection) (csv : raw_frame) (d : list row) (s : session),
    load_data csv = Ok d ->
    aggregate sel d = Ok s ->
    let col := map Winner d in
    (forall b, majority_mark s <= count b col -> b = winner_party_state s)
    /\ (government_status s = Ok "Hung Assembly"
        <-> forall b, count b col < majority_mark s)
    /\ len d <= 4 * count (winner_party_state s) col.
Proof.
  intros sel csv d s Hd Hs col.
  destruct (government_status_aggregate sel d s Hs) as [_ Hst].
  fold col in Hst.
  pose proof Hs as Hs'. apply aggregate_Ok in Hs'.
  destruct Hs' as [_ [w [Hw Heq]]].
  assert (Hmm : majority_mark s = len d / 2 + 1) by (subst s; reflexivity).
  assert (Hws : winner_party_state s = w) by (subst s; reflexivity).
  destruct (idxmax_party_counts d w Hw) as (_ & Hmax & _).
  fold col in Hmax. rewrite <- Hws in Hmax.
  pose proof (Z.div_mod (len d) 2 ltac:(lia)) as Hdm.
  pose proof (Z.mod_pos_bound (len d) 2 ltac:(lia)) as Hmb.
  split; [|split].
  - intros b Hb.
    destruct (string_dec b (winner_party_state s)) as [|Hne]; [assumption|].
    exfalso. pose proof (count_two_le _ _ col Hne) as H2.
    unfold col in H2 at 3. rewrite len_map in H2.
    specialize (Hmax b). lia.
  - rewrite Hst.
    destruct (Z.leb_spec (majority_mark s) (count (winner_party_state s) col))
      as [Hle|Hlt].
    + split; [discriminate|]. intros H.
      specialize (H (winner_party_state s)). lia.
    + split; [|reflexivity]. intros _ b. specialize (Hmax b). lia.
  - pose proof (loaded_winner_bucket csv d Hd) as Hb.
    assert (Hsum : count "INC" col + count "BJP" col + count "JDS" col
                   + count "Others" col = len d).
    { rewrite <- (len_map Winner d). apply count_buckets_sum.
      now apply Forall_map_iff. }
    pose proof (Hmax "INC"). pose proof (Hmax "BJP").
    pose proof (Hmax "JDS"). pose proof (Hmax "Others"). lia.
Qed.

Lemma majority_is_unique_witness :
  (forall b, majority_mark session_2023 <= count b (map Winner result_2023) ->
             b = winner_party_state session_2023)
  /\ (government_status session_2023 = Ok "Hung Assembly"
      <-> forall b, count b (map Winner result_2023) < majority_mark session_2023)
  /\ len result_2023
     <= 4 * count (winner_party_state session_2023) (map Winner result_2023).
Proof.
  apply (majority_is_unique all_selection result_2023_csv result_2023 session_2023).
  - vm_compute. reflexivity.
  - vm_compute. reflexivity.
Defined.

(** ** The Constituency Analysis and the Regional Deep-Dive *)



Lemma series_eq_true (v value : cell) :
  series_eq v value = true <-> v = value /\ value <> NaN.
Proof.
  unfold series_eq. destruct v as [x|t reads|].
  - destruct (cell_eq_dec (Num x) value) as [<-|Hc].
    + split; [split; [reflexivity|discriminate]|reflexivity].
    + split; [discriminate|tauto].
  - destruct (cell_eq_dec (Text t reads) value) as [<-|Hc].
    + split; [split; [reflexivity|discriminate]|reflexivity].
    + split; [discriminate|tauto].
  - split; [discriminate|]. intros [<- H]. congruence.
Qed.

(** X17. The Regional Deep-Dive shows the rows of the filtered frame
    whose region equals the selected one, in the order of the frame; a
    region that some filtered row holds gives a table with that row;
    the missing region (NaN) gives an empty table, since NaN equals
    nothing. *)
Theorem regional_view_rows :
  forall (s : session) (region : cell) (regional_df : list row),
    render (RegionalDeepDive region) s = Ok (Regional regional_df) ->
    regional_df = filter (fun r => series_eq (Region r) region) (filtered s)
    /\ (forall r, In r regional_df
                  <-> In r (filtered s) /\ Region r = region /\ region <> NaN)
    /\ (region = NaN -> regional_df = [])
    /\ (region <> NaN -> (exists r, In r (filtered s) /\ Region r = region) ->
        regional_df <> []).
Proof.
  intros s region rdf H. simpl in H. apply bind_Ok in H.
  destruct H as [[] [_ H]]. injection H as <-.
  assert (Heq : forall r, series_eq (Region r) region = true
                          <-> Region r = region /\ region <> NaN).
  { intros r. apply series_eq_true. }
  split; [reflexivity|]. split; [|split].
  - intros r. rewrite filter_In, Heq. tauto.
  - intros ->.
    destruct (filter _ (filtered s)) as [|r f] eqn:E; [reflexivity|].
    assert (Hr : In r (filter (fun r => series_eq (Region r) NaN) (filtered s)))
      by (rewrite E; now left).
    apply filter_In in Hr. destruct Hr as [_ Hr]. apply Heq in Hr.
    destruct Hr as [_ Hr]. congruence.
  - intros Hn [r [Hr Hreg]] He.
    assert (Hin : In r (filter (fun r => series_eq (Region r) region) (filtered s))).
    { apply filter_In. split; [exact Hr|]. apply Heq. auto. }
    rewrite He in Hin. exact Hin.
Qed.

Definition sample_session : session :=
  mk_session sample_df (filtered_df sample_selection sample_df)
             (party_counts sample_df) 6 4 "BJP"
             (party_counts (filtered_df sample_selection sample_df)) 3.

Lemma sample_session_aggregate :
  aggregate sample_selection sample_df = Ok sample_session.
Proof. vm_compute. reflexivity. Qed.

Lemma regional_view_rows_witness :
  render (RegionalDeepDive (Text "Coastal" None)) sample_session
  = Ok (Regional (filter (fun r => series_eq (Region r) (Text "Coastal" None))
                         (filtered sample_session)))
  /\ filter (fun r => series_eq (Region r) (Text "Coastal" None))
            (filtered sample_session) <> [].
Proof.
  assert (H : render (RegionalDeepDive (Text "Coastal" None)) sample_session
              = Ok (Regional (filter (fun r => series_eq (Region r)
                                                         (Text "Coastal" None))
                                     (filtered sample_session))))
    by (vm_compute; reflexivity).
  split; [exact H|].
  destruct (regional_view_rows _ _ _ H) as (_ & _ & _ & H4).
  apply H4; [discriminate|].
  eexists. split; [vm_compute; left; reflexivity|reflexivity].
Defined.

(** ** The seat-share chart (app.py, lines 209 to 237) *)

(** One row of [comp_long]. *)
Record long_row : Type := mk_long_row {
  long_Party : string;
  Scope : string;
  Seat_Share_pct : Q
}.

(** [comp_df.melt(id_vars="Party", value_vars=["Statewide_%",
    "Filtered_%"], var_name="Scope", value_name="Seat_Share_%")]: the
    rows of the first value column, then those of the second. *)
Definition melt (comp : list comp_row) : list long_row :=
  (map (fun c => mk_long_row (Party c) "Statewide_%" (Statewide_pct c)) comp
   ++ map (fun c => mk_long_row (Party c) "Filtered_%" (Filtered_pct c)) comp)%list.

(** [.replace({"Statewide_%": "Statewide", "Filtered_%": "Filtered View"})]
    on one entry. *)
Definition replace_scope (v : string) : string :=
  if (v =? "Statewide_%")%string then "Statewide"
  else if (v =? "Filtered_%")%string then "Filtered View"
  else v.

Definition comp_long (comp : list comp_row) : list long_row :=
  map (fun l => mk_long_row (long_Party l) (replace_scope (Scope l))
                            (Seat_Share_pct l))
      (melt comp).

Lemma count_le_len (b : string) (col : list string) : count b col <= len col.
Proof.
  unfold count, len. induction col as [|x col IH]; simpl; [lia|].
  destruct (string_dec x b); lia.
Qed.

Lemma count_filter_le (b : string) (f : row -> bool) (l : list row) :
  count b (map Winner (filter f l)) <= count b (map Winner l).
Proof.
  unfold count. induction l as [|r l IH]; simpl; [lia|].
  destruct (f r); simpl; destruct (string_dec (Winner r) b); lia.
Qed.

Lemma percent_bounds (c total : Z) :
  0 <= c <= total -> 0 < total ->
  (0 <= percent c total)%Q /\ (percent c total <= 100)%Q.
Proof.
  intros Hc Ht. unfold percent.
  destruct total as [|p|p]; try lia.
  unfold Qle, Qdiv, Qmult, Qinv, inject_Z. simpl. split; nia.
Qed.

(** What the chart can rely on, for one row of [comp_df]. *)
Definition seats_bounded (s : session) (c : comp_row) : Prop :=
  0 <= Filtered_Seats c <= Statewide_Seats c
  /\ Statewide_Seats c <= total_seats_state s
  /\ Filtered_Seats c <= total_seats_filtered s.

(** X18. In a run that shows the Executive Summary no bucket has more
    filtered seats than statewide seats, nor more seats than its scope
    has rows; the long table of the bar chart has eight rows, the four
    buckets under the scope "Statewide" and then under "Filtered View";
    and every seat share lies between 0 and 100, the range of the
    chart's axis. *)
Theorem seat_share_chart_bounds :
  forall (sel : selection) (csv : raw_frame) (s : session) (v : view),
    app ExecutiveSummary sel csv = Ok (s, v) ->
    Forall (seats_bounded s) (comp_df s)
    /\ total_seats_filtered s <= total_seats_state s
    /\ map (fun l => (long_Party l, Scope l)) (comp_long (comp_df s))
       = [("INC", "Statewide"); ("BJP", "Statewide"); ("JDS", "Statewide");
          ("Others", "Statewide"); ("INC", "Filtered View");
          ("BJP", "Filtered View"); ("JDS", "Filtered View");
          ("Others", "Filtered View")]
    /\ Forall (fun l => (0 <= Seat_Share_pct l)%Q /\ (Seat_Share_pct l <= 100)%Q)
              (comp_long (comp_df s)).
Proof.
  intros sel csv s v H. apply app_Ok in H.
  destruct H as [d (_ & _ & Hs & _)].
  apply aggregate_Ok in Hs. destruct Hs as [Hne [w [_ ->]]].
  assert (Hposd : 0 < len d) by (apply len_pos; eapply filtered_df_incl; eauto).
  assert (Hposf : 0 < len (filtered_df sel d)) by now apply len_pos.
  assert (Hb : forall b,
             0 <= count b (map Winner (filtered_df sel d))
                <= count b (map Winner d)
             /\ count b (map Winner d) <= len d
             /\ count b (map Winner (filtered_df sel d))
                <= len (filtered_df sel d)).
  { intros b. split; [split; [apply count_nonneg|apply count_filter_le]|].
    split.
    - rewrite <- (len_map Winner d). apply count_le_len.
    - rewrite <- (len_map Winner (filtered_df sel d)). apply count_le_len. }
  unfold comp_long, melt, comp_df, seats_bounded.
  cbn [map app df filtered party_counts_state party_counts_filtered
           total_seats_state total_seats_filtered Party Statewide_Seats
           Filtered_Seats Statewide_pct Filtered_pct long_Party Scope
           Seat_Share_pct].
  rewrite !get_party_counts.
  split; [repeat constructor; apply Hb|].
  split; [apply filter_len_le|].
  split; [reflexivity|].
  pose proof (fun b => count_nonneg b (map Winner d)) as Hn.
  repeat constructor;
    try (apply percent_bounds; [|assumption]; split;
         [apply count_nonneg | apply Hb]).
Qed.

Lemma seat_share_chart_bounds_witness :
  Forall (seats_bounded sample_session) (comp_df sample_session)
  /\ Forall (fun l => (0 <= Seat_Share_pct l)%Q /\ (Seat_Share_pct l <= 100)%Q)
            (comp_long (comp_df sample_session)).
Proof.
  assert (H : app ExecutiveSummary sample_selection sample_csv
              = Ok (sample_session,
                    Summary "BJP" "Hung Assembly" 2 2 (comp_df sample_session)))
    by (vm_compute; reflexivity).
  destruct (seat_share_chart_bounds _ _ _ _ H) as (H1 & _ & _ & H4).
  split; assumption.
Defined.

(** ** The sidebar and a missing region *)

Lemma exists_str_region (d : list row) :
  existsb is_str (map Region d) = true
  <-> exists r, In r d /\ is_str (Region r) = true.
Proof.
  rewrite existsb_exists. split.
  - intros [c [Hc H]]. apply in_map_iff in Hc. destruct Hc as [r [<- Hr]]. eauto.
  - intros [r [Hr H]]. exists (Region r). split; [now apply in_map|exact H].
Qed.

Lemma exists_other_region (d : list row) :
  existsb (fun c => negb (is_str c)) (map Region d) = true
  <-> exists r, In r d /\ is_str (Region r) = false.
Proof.
  rewrite existsb_exists. split.
  - intros [c [Hc H]]. apply in_map_iff in Hc. destruct Hc as [r [<- Hr]].
    apply negb_true_iff in H. eauto.
  - intros [r [Hr H]]. exists (Region r). split; [now apply in_map|].
    now apply negb_true_iff.
Qed.

(** X19. A Region column that holds text and, in some row, a missing
    entry or a number cannot be sorted for the sidebar: on such a loaded
    frame every run raises TypeError, whatever the view and the
    selection; a frame whose regions are all text, or none of them text,
    passes. *)
Theorem mixed_regions_raise :
  forall (mode : view_mode) (sel : selection) (csv : raw_frame) (d : list row),
    load_data csv = Ok d ->
    ((exists r1 r2, In r1 d /\ In r2 d /\ is_str (Region r1) = true
                    /\ is_str (Region r2) = false)
     -> app mode sel csv = Raise "TypeError")
    /\ (region_options d = Ok tt
        <-> (forall r, In r d -> is_str (Region r) = true)
            \/ (forall r, In r d -> is_str (Region r) = false)).
Proof.
  intros mode sel csv d Hd. split.
  - intros (r1 & r2 & H1 & H2 & Hs1 & Hs2).
    unfold app. rewrite Hd. simpl. unfold region_options.
    rewrite (proj2 (exists_str_region d)), (proj2 (exists_other_region d));
      eauto.
  - unfold region_options.
    destruct (existsb is_str (map Region d)) eqn:E1;
      destruct (existsb (fun c => negb (is_str c)) (map Region d)) eqn:E2;
      simpl.
    + split; [discriminate|].
      apply exists_str_region in E1. apply exists_other_region in E2.
      destruct E1 as [r1 [H1 Hs1]]. destruct E2 as [r2 [H2 Hs2]].
      intros [H|H]; [specialize (H r2 H2)|specialize (H r1 H1)]; congruence.
    + split; [|reflexivity]. intros _. left. intros r Hr.
      destruct (is_str (Region r)) eqn:E; [reflexivity|].
      assert (X : existsb (fun c => negb (is_str c)) (map Region d) = true)
        by (apply exists_other_region; eauto).
      congruence.
    + split; [|reflexivity]. intros _. right. intros r Hr.
      destruct (is_str (Region r)) eqn:E; [|reflexivity].
      assert (X : existsb is_str (map Region d) = true)
        by (apply exists_str_region; eauto).
      congruence.
    + split; [|reflexivity]. intros _. left. intros r Hr.
      destruct (is_str (Region r)) eqn:E; [reflexivity|].
      assert (X : existsb (fun c => negb (is_str c)) (map Region d) = true)
        by (apply exists_other_region; eauto).
      congruence.
Qed.

Definition missing_region_csv : raw_frame :=
  mk_raw_frame required
    [ clean_line 1 "INC" "Coastal" 1200 70;
      mk_raw_row (Num (Finite 2)) (Text "Seat" None) (Text "Candidate" None)
                 (Text "BJP" None) (Text "BJP" None) NaN
                 (Num (Finite 900)) (Num (Finite 71)) (Num (Finite 1)) ].

Lemma mixed_regions_raise_witness :
  app ExecutiveSummary all_selection missing_region_csv = Raise "TypeError".
Proof.
  destruct (mixed_regions_raise ExecutiveSummary all_selection missing_region_csv
              (map load_row (raw_rows missing_region_csv))) as [H _].
  - vm_compute. reflexivity.
  - apply H. eexists. eexists.
    split; [left; reflexivity|]. split; [right; left; reflexivity|].
    split; reflexivity.
Defined.

(** ** The colours of the charts (app.py, lines 82 to 87) *)

Definition color_map : list (string * string) :=
  [("INC", "#1F77B4"); ("BJP", "#FF7F0E"); ("JDS", "#2CA02C");
   ("Others", "#7F7F7F")].

(** [color_map.get(k)] *)
Fixpoint color_of (k : string) (m : list (string * string)) : option string :=
  match m with
  | [] => None
  | (k', v) :: m' => if (k =? k')%string then Some v else color_of k m'
  end.

(** X20. Every row that a chart draws has a configured colour: the
    Winner of each row of a loaded frame, hence of each filtered frame,
    is a key of [color_map], and two rows share a colour only when they
    share the bucket. *)
Theorem every_winner_has_a_colour :
  forall (csv : raw_frame) (d : list row),
    load_data csv = Ok d ->
    (forall r, In r d -> exists c, color_of (Winner r) color_map = Some c)
    /\ (forall r r', In r d -> In r' d ->
          color_of (Winner r) color_map = color_of (Winner r') color_map ->
          Winner r = Winner r').
Proof.
  intros csv d Hd.
  pose proof (loaded_winner_bucket csv d Hd) as Hb. rewrite Forall_forall in Hb.
  split.
  - intros r Hr. destruct (Hb r Hr) as [<-|[<-|[<-|[<-|[]]]]];
      simpl; eauto.
  - intros r r' Hr Hr'.
    destruct (Hb r Hr) as [<-|[<-|[<-|[<-|[]]]]];
      destruct (Hb r' Hr') as [<-|[<-|[<-|[<-|[]]]]];
      simpl; intros H; try reflexivity; discriminate H.
Qed.

Lemma every_winner_has_a_colour_witness :
  (forall r, In r sample_df -> exists c, color_of (Winner r) color_map = Some c)
  /\ (forall r r', In r sample_df -> In r' sample_df ->
        color_of (Winner r) color_map = color_of (Winner r') color_map ->
        Winner r = Winner r').
Proof.
  apply (every_winner_has_a_colour sample_csv). vm_compute. reflexivity.
Defined.
